(** * Maintainer dashboard: the aggregation pipeline of [DashboardTab.tsx]

    A shallow embedding of
    [frontend/src/features/maintainers/components/dashboard/DashboardTab.tsx]:
    the fetch orchestration ([loadData]), the 7-day statistics ([stats]),
    the activity feed ([activities], [formatTimeAgo], [parseTimeAgo]), the
    six-month chart ([chartData]) and the declarations the JSX finally reads.

    Conventions.
    - A JavaScript number that the component manipulates is an integer or
      [NaN]; it is a [num := option Z] with [None] for [NaN].
    - A [Date] is identified with its time value (milliseconds since the
      epoch, or [NaN] for an invalid date).  Time values are not clipped.
    - A function that reads the clock takes the value of its [new Date()] as
      a parameter [now].  The evaluation of the component body threads a
      clock: every [new Date()] it reaches gets a reading of its own.
    - The local time zone is a fixed offset [tz] (milliseconds east of UTC):
      the zone is taken to have no change of offset among the dates involved.
    - A promise is identified with its outcome: a value or a rejection.
    - Arithmetic is exact: for a present-day clock every value the component
      computes stays below 2^53.
    - The component body is evaluated statement by statement over the
      bindings made so far, so a name that is used before its declaration
      has been reached is not bound yet. *)

From Stdlib Require Import ZArith List String Ascii Bool Lia.
From Stdlib Require Import Permutation Sorted DecimalString DecimalPos.
Import ListNotations.

Local Open Scope string_scope.
Local Open Scope list_scope.
Local Open Scope Z_scope.

(* ================================================================== *)
(** ** The fragment of JavaScript the component relies on *)
(* ================================================================== *)

Module Js.

(** Numbers: an integer or [NaN]. *)
Definition num := option Z.
Definition NaN : num := None.

Definition sub (a b : num) : num :=
  match a, b with
  | Some x, Some y => Some (x - y)
  | _, _ => NaN
  end.

(** [Math.floor(a / d)] for a positive integer constant [d]. *)
Definition floorDiv (a : num) (d : Z) : num := option_map (fun x => x / d) a.

(** Relational operators: any comparison with [NaN] is false. *)
Definition lt (a b : num) : bool :=
  match a, b with
  | Some x, Some y => x <? y
  | _, _ => false
  end.

Definition ge (a b : num) : bool :=
  match a, b with
  | Some x, Some y => y <=? x
  | _, _ => false
  end.

(** [a !== k] for an integer literal [k]. *)
Definition neqLit (a : num) (k : Z) : bool :=
  match a with
  | Some x => negb (x =? k)
  | None => true
  end.

(** [a || 0] on numbers: [NaN] and [0] are falsy. *)
Definition orZero (a : num) : Z :=
  match a with
  | Some x => x
  | None => 0
  end.

(** [String(n)] for an integer or [NaN]. *)
Definition toString (a : num) : string :=
  match a with
  | Some x => NilZero.string_of_int (Z.to_int x)
  | None => "NaN"%string
  end.

(** [hay.includes(needle)]. *)
Fixpoint includes (hay needle : string) : bool :=
  if String.prefix needle hay then true
  else match hay with
       | EmptyString => false
       | String _ rest => includes rest needle
       end.

(** *** [parseInt(s)] with no radix argument *)

Definition isWhiteSpace (c : ascii) : bool :=
  let n := N_of_ascii c in
  (N.eqb n 32 || (N.leb 9 n && N.leb n 13))%bool.

Fixpoint trimStart (s : string) : string :=
  match s with
  | String c rest => if isWhiteSpace c then trimStart rest else s
  | EmptyString => s
  end.

(** The value of a character as a digit in the given radix. *)
Definition digitOf (radix : Z) (c : ascii) : option Z :=
  let n := Z.of_N (N_of_ascii c) in
  let v := if (48 <=? n) && (n <=? 57) then n - 48
           else if (97 <=? n) && (n <=? 122) then n - 87
           else if (65 <=? n) && (n <=? 90) then n - 55
           else radix in
  if v <? radix then Some v else None.

(** The longest prefix of digits, read left to right; [NaN] when empty. *)
Fixpoint readDigits (radix : Z) (s : string) (acc : num) : num :=
  match s with
  | EmptyString => acc
  | String c rest =>
      match digitOf radix c with
      | Some d => readDigits radix rest (Some (radix * orZero acc + d))
      | None => acc
      end
  end.

Definition hexPrefix (s : string) : bool :=
  (String.prefix "0x" s || String.prefix "0X" s)%bool.

Definition readUnsigned (s : string) : num :=
  if hexPrefix s
  then readDigits 16 (String.substring 2 (String.length s - 2) s) NaN
  else readDigits 10 s NaN.

Definition parseInt (s : string) : num :=
  match trimStart s with
  | String "-" rest => option_map Z.opp (readUnsigned rest)
  | String "+" rest => readUnsigned rest
  | t => readUnsigned t
  end.

(** *** [Array.prototype.sort(comparefn)]

    The sort is stable; an element moves behind another only when the
    comparator returns a positive number, and a [NaN] result counts as [+0].
    Stable insertion is one conforming implementation; on a consistent
    comparator every conforming implementation returns the same array. *)

Definition positive (v : num) : bool :=
  match v with
  | Some z => 0 <? z
  | None => false
  end.

Section Sort.
Context {A : Type}.
Variable comparefn : A -> A -> num.

Fixpoint insert (x : A) (l : list A) : list A :=
  match l with
  | [] => [x]
  | y :: rest => if positive (comparefn x y) then y :: insert x rest
                 else x :: l
  end.

Definition sort (l : list A) : list A := fold_right insert [] l.
End Sort.

(** *** Calendar arithmetic of [Date] *)

Definition msPerDay : Z := 86400000.

Definition dayFromYear (y : Z) : Z :=
  365 * (y - 1970) + (y - 1969) / 4 - (y - 1901) / 100 + (y - 1601) / 400.

Definition inLeapYear (y : Z) : bool :=
  ((y mod 4 =? 0) && (negb (y mod 100 =? 0) || (y mod 400 =? 0)))%bool.

(** Days of the year that precede month [m] (0 = January). *)
Definition daysBeforeMonth (leap : bool) (m : Z) : Z :=
  let l := if leap then 1 else 0 in
  match m with
  | 0 => 0 | 1 => 31 | 2 => 59 + l | 3 => 90 + l | 4 => 120 + l
  | 5 => 151 + l | 6 => 181 + l | 7 => 212 + l | 8 => 243 + l
  | 9 => 273 + l | 10 => 304 + l | _ => 334 + l
  end.

(** [MakeDay(year, month, date)]: the month argument may lie outside 0..11. *)
Definition makeDay (year month date : Z) : Z :=
  let ym := year + month / 12 in
  let mn := month mod 12 in
  dayFromYear ym + daysBeforeMonth (inLeapYear ym) mn + date - 1.

(** [new Date(year, monthIndex, date).getTime()] in the zone [tz]; a year in
    0..99 denotes 1900 + year.  The offset is the same for every date: a
    change of offset (daylight saving) between two dates is not modelled,
    and no statement below is about the length of a bucket in milliseconds. *)
Definition newDate (tz year month date : Z) : Z :=
  let yr := if (0 <=? year) && (year <=? 99) then 1900 + year else year in
  makeDay yr month date * msPerDay - tz.

(** [YearFromTime]: the year [y] with
    [dayFromYear y <= day < dayFromYear (y + 1)]. *)
Definition yearFromDay (day : Z) : Z :=
  let y := 1970 + (400 * day) / 146097 in
  if dayFromYear (y + 1) <=? day then y + 1
  else if dayFromYear y <=? day then y
  else y - 1.

Definition monthFromDay (day : Z) : Z :=
  let y := yearFromDay day in
  let d := day - dayFromYear y in
  let leap := inLeapYear y in
  let fix scan (fuel : nat) (m : Z) : Z :=
    match fuel with
    | O => m
    | S f => if daysBeforeMonth leap (m + 1) <=? d then scan f (m + 1) else m
    end in
  scan 11%nat 0.

Definition getFullYear (tz t : Z) : Z := yearFromDay ((t + tz) / msPerDay).
Definition getMonth (tz t : Z) : Z := monthFromDay ((t + tz) / msPerDay).

End Js.

(* ================================================================== *)
(** ** Data model *)
(* ================================================================== *)

(** A timestamp field of a fetched record, as [new Date(field)] sees it.
    [TsAbsent] is a missing property (the empty string behaves alike);
    [TsDate ms] is a string that parses to the time value [ms];
    [TsGarbage] is a non-empty string that does not parse. *)
Inductive tsField : Type :=
| TsAbsent
| TsNull
| TsDate (ms : Z)
| TsGarbage.

(** Truthiness, as tested by [a.updated_at ? ... : ...]. *)
Definition truthy (f : tsField) : bool :=
  match f with
  | TsDate _ | TsGarbage => true
  | TsAbsent | TsNull => false
  end.

(** [new Date(field).getTime()]: [new Date(undefined)] is invalid, while
    [new Date(null)] is the epoch. *)
Definition dateOf (f : tsField) : Js.num :=
  match f with
  | TsDate ms => Some ms
  | TsNull => Some 0
  | TsAbsent | TsGarbage => Js.NaN
  end.

Record Project : Type := mkProject {
  id : string;
  github_full_name : string;
  status : string
}.

Record Issue : Type := mkIssue {
  github_issue_id : Z;
  issue_number : Z;
  issue_title : string;
  comments_count : Js.num;           (* [None]: absent, null or NaN *)
  issue_state : string;
  issue_updated_at : tsField;
  issue_last_seen_at : tsField;
  issue_projectName : option string  (* attached by [loadData] *)
}.

Record PullRequest : Type := mkPR {
  github_pr_id : Z;
  pr_number : Z;
  pr_title : string;
  pr_state : string;
  merged : bool;
  pr_updated_at : tsField;
  pr_last_seen_at : tsField;
  pr_projectName : option string
}.

(** The two fields every list in the component is probed for. *)
Class Timestamped (A : Type) : Type := {
  updated_at : A -> tsField;
  last_seen_at : A -> tsField
}.

#[export] Instance Issue_Timestamped : Timestamped Issue :=
  {| updated_at := issue_updated_at; last_seen_at := issue_last_seen_at |}.

#[export] Instance PullRequest_Timestamped : Timestamped PullRequest :=
  {| updated_at := pr_updated_at; last_seen_at := pr_last_seen_at |}.

(** [r.updated_at ? new Date(r.updated_at) : new Date(r.last_seen_at)]. *)
Definition effectiveTime {A} `{Timestamped A} (r : A) : Js.num :=
  if truthy (updated_at r) then dateOf (updated_at r)
  else dateOf (last_seen_at r).

Inductive Icon : Type := Eye | FileText | GitPullRequest | GitMerge.

Record StatCard : Type := mkStat {
  stat_id : Z;
  stat_title : string;
  subtitle : string;
  value : Z;
  change : Z;
  icon : Icon
}.

Inductive ActivityType : Type := TypePr | TypeIssue.

Record Activity : Type := mkActivity {
  act_id : Z;
  act_type : ActivityType;
  act_number : Z;
  act_title : string;
  label : option string;
  timeAgo : string
}.

Record ChartDataPoint : Type := mkPoint {
  month : string;
  applications : Z;
  point_merged : Z
}.

(* ================================================================== *)
(** ** Fetching: [loadData] *)
(* ================================================================== *)

(** A computation that returns or throws (an awaited promise that resolves
    or rejects). *)
Inductive outcome (A : Type) : Type :=
| Returned (a : A)
| Thrown (err : string).
Arguments Returned {A} a.
Arguments Thrown {A} err.

Definition ret {A} (a : A) : outcome A := Returned a.

Definition bind {A B} (m : outcome A) (k : A -> outcome B) : outcome B :=
  match m with
  | Returned a => k a
  | Thrown e => Thrown e
  end.

Notation "x <- m ;; k" := (bind m (fun x => k))
  (at level 61, m at next level, right associativity).

(** [try { body } catch (err) { handler }]. *)
Definition tryCatch {A} (body : outcome A) (handler : string -> outcome A)
  : outcome A :=
  match body with
  | Returned a => Returned a
  | Thrown e => handler e
  end.

(** [Promise.all]: rejects as soon as one member rejects. *)
Fixpoint promiseAll {A} (ps : list (outcome A)) : outcome (list A) :=
  match ps with
  | [] => ret []
  | p :: rest => a <- p ;; l <- promiseAll rest ;; ret (a :: l)
  end.

(** The responses of the API client; [None] is a null or missing field. *)
Record IssuesResponse : Type := { issues : option (list Issue) }.
Record PRsResponse : Type := { prs : option (list PullRequest) }.

(** The imported client, [shared/api/client]. *)
Record Client : Type := {
  getProjectIssues : string -> outcome IssuesResponse;
  getProjectPRs : string -> outcome PRsResponse
}.

(** [field || []]. *)
Definition orEmpty {A} (field : option (list A)) : list A :=
  match field with
  | Some l => l
  | None => []
  end.

Definition tagIssue (project : Project) (issue : Issue) : Issue :=
  {| github_issue_id := github_issue_id issue;
     issue_number := issue_number issue;
     issue_title := issue_title issue;
     comments_count := comments_count issue;
     issue_state := issue_state issue;
     issue_updated_at := issue_updated_at issue;
     issue_last_seen_at := issue_last_seen_at issue;
     issue_projectName := Some (github_full_name project) |}.

Definition tagPR (project : Project) (pr : PullRequest) : PullRequest :=
  {| github_pr_id := github_pr_id pr;
     pr_number := pr_number pr;
     pr_title := pr_title pr;
     pr_state := pr_state pr;
     merged := merged pr;
     pr_updated_at := pr_updated_at pr;
     pr_last_seen_at := pr_last_seen_at pr;
     pr_projectName := Some (github_full_name project) |}.

(** The two callbacks mapped over [selectedProjects]. *)
Definition fetchIssuesOf (api : Client) (project : Project)
  : outcome (list Issue) :=
  tryCatch
    (response <- getProjectIssues api (id project) ;;
     ret (map (tagIssue project) (orEmpty (issues response))))
    (fun _ => ret []).

Definition fetchPRsOf (api : Client) (project : Project)
  : outcome (list PullRequest) :=
  tryCatch
    (response <- getProjectPRs api (id project) ;;
     ret (map (tagPR project) (orEmpty (prs response))))
    (fun _ => ret []).

(** The comparator of both sorts: [dateB - dateA]. *)
Definition byRecency {A} `{Timestamped A} (a b : A) : Js.num :=
  Js.sub (effectiveTime b) (effectiveTime a).

(** The component state. *)
Record Dash : Type := mkDash {
  st_issues : list Issue;
  st_prs : list PullRequest;
  isLoading : bool
}.

Definition setIssues (l : list Issue) (st : Dash) : Dash :=
  mkDash l (st_prs st) (isLoading st).
Definition setPrs (l : list PullRequest) (st : Dash) : Dash :=
  mkDash (st_issues st) l (isLoading st).
Definition setIsLoading (b : bool) (st : Dash) : Dash :=
  mkDash (st_issues st) (st_prs st) b.

(** The body of the outer [try] of [loadData]. *)
Definition loadDataBody (api : Client) (selectedProjects : list Project)
  (st : Dash) : outcome Dash :=
  if (List.length selectedProjects =? 0)%nat
  then ret (setIsLoading false (setPrs [] (setIssues [] st)))
  else
    issuesData <- promiseAll (map (fetchIssuesOf api) selectedProjects) ;;
    prsData <- promiseAll (map (fetchPRsOf api) selectedProjects) ;;
    let allIssues := List.concat issuesData in
    let allPRs := List.concat prsData in
    ret (setPrs (Js.sort byRecency allPRs)
           (setIssues (Js.sort byRecency allIssues) st)).

(** [loadData]: [try ... catch ... finally setIsLoading(false)]. *)
Definition loadData (api : Client) (selectedProjects : list Project)
  (st : Dash) : Dash :=
  let st1 := setIsLoading true st in
  let st2 := match loadDataBody api selectedProjects st1 with
             | Returned s => s
             | Thrown _ => st1
             end in
  setIsLoading false st2.

(* ================================================================== *)
(** ** Derived values: the memoised [stats], [activities], [chartData] *)
(* ================================================================== *)

(** The filter shared by [recentIssues] and [recentPRs]:
    [updatedAt >= sevenDaysAgo]. *)
Definition sevenDaysAgo (now : Z) : Z := now - 7 * 24 * 60 * 60 * 1000.

Definition isRecent {A} `{Timestamped A} (now : Z) (r : A) : bool :=
  Js.ge (effectiveTime r) (Some (sevenDaysAgo now)).

(** [arr.length] as a number. *)
Definition len {A} (l : list A) : Z := Z.of_nat (List.length l).

(** [list.reduce((sum, issue) => sum + (issue.comments_count || 0), 0)]. *)
Definition sumComments (l : list Issue) : Z :=
  fold_left (fun sum issue => sum + Js.orZero (comments_count issue)) l 0.

(** The first declaration of [stats] (the [useMemo]). *)
Definition stats (now : Z) (issues : list Issue) (prs : list PullRequest)
  : list StatCard :=
  let recentIssues := filter (isRecent now) issues in
  let recentPRs := filter (isRecent now) prs in
  let openedPRs :=
    filter (fun pr => String.eqb (pr_state pr) "open") recentPRs in
  let mergedPRs := filter (fun pr => Bool.eqb (merged pr) true) recentPRs in
  [ mkStat 1 "Repository Views" "Last 7 days" 0 (-100) Eye;
    mkStat 2 "Issue Views" "Last 7 days" (len recentIssues) 0 FileText;
    mkStat 3 "Issue Applications" "Last 7 days" (sumComments recentIssues) 0
      FileText;
    mkStat 4 "Pull Requests Opened" "Last 7 days" (len openedPRs)
      (if 0 <? len openedPRs then 100 else 0) GitPullRequest;
    mkStat 5 "Pull Requests Merged" "Last 7 days" (len mergedPRs)
      (if 0 <? len mergedPRs then 100 else 0) GitMerge ].

(** A template literal [`${n} unit${n !== 1 ? 's' : ''}`]. *)
Definition plural (n : Js.num) (unit : string) : string :=
  (Js.toString n ++ " " ++ unit ++ (if Js.neqLit n 1 then "s" else ""))%string.

Definition formatTimeAgo (now : Z) (date : Js.num) : string :=
  let diffMs := Js.sub (Some now) date in
  let diffMins := Js.floorDiv diffMs 60000 in
  let diffHours := Js.floorDiv diffMs 3600000 in
  let diffDays := Js.floorDiv diffMs 86400000 in
  let diffMonths := Js.floorDiv diffDays 30 in
  (if Js.lt diffMins (Some 1) then "just now"
   else if Js.lt diffMins (Some 60) then plural diffMins "minute" ++ " ago"
   else if Js.lt diffHours (Some 24) then plural diffHours "hour" ++ " ago"
   else if Js.lt diffDays (Some 30) then plural diffDays "day" ++ " ago"
   else plural diffMonths "month" ++ " ago")%string.

Definition parseTimeAgo (now : Z) (timeAgo : string) : Z :=
  if Js.includes timeAgo "minute" then
    let mins := Js.orZero (Js.parseInt timeAgo) in now - mins * 60000
  else if Js.includes timeAgo "hour" then
    let hours := Js.orZero (Js.parseInt timeAgo) in now - hours * 3600000
  else if Js.includes timeAgo "day" then
    let days := Js.orZero (Js.parseInt timeAgo) in now - days * 86400000
  else if Js.includes timeAgo "month" then
    let months := Js.orZero (Js.parseInt timeAgo) in
    now - months * 30 * 86400000
  else now.

(** The value of [r.updated_at ? formatTimeAgo(new Date(r.updated_at))
                 : formatTimeAgo(new Date(r.last_seen_at))] when
    [formatTimeAgo] can be called and reads [now] from the clock. *)
Definition timeAgoOf {A} `{Timestamped A} (now : Z) (r : A) : string :=
  if truthy (updated_at r) then formatTimeAgo now (dateOf (updated_at r))
  else formatTimeAgo now (dateOf (last_seen_at r)).

Definition prActivity (now : Z) (pr : PullRequest) : Activity :=
  {| act_id := github_pr_id pr;
     act_type := TypePr;
     act_number := pr_number pr;
     act_title := pr_title pr;
     label := Some (if merged pr then "Merged"
                    else if String.eqb (pr_state pr) "open" then "Open"
                    else "Closed");
     timeAgo := timeAgoOf now pr |}.

Definition issueActivity (now : Z) (issue : Issue) : Activity :=
  {| act_id := github_issue_id issue;
     act_type := TypeIssue;
     act_number := issue_number issue;
     act_title := issue_title issue;
     label := if Js.lt (Some 0) (comments_count issue)
              then Some (plural (comments_count issue) "comment")
              else None;
     timeAgo := timeAgoOf now issue |}.

(** [arr.push(x)] and [list.forEach(x => body)] on an accumulated array. *)
Definition push {A} (arr : list A) (x : A) : list A := arr ++ [x].

Definition forEach {A S} (l : list A) (body : S -> A -> S) (s : S) : S :=
  fold_left body l s.

Definition byParsedTime (now : Z) (a b : Activity) : Js.num :=
  Some (parseTimeAgo now (timeAgo b) - parseTimeAgo now (timeAgo a)).

(** The array that the factory of the first [activities] (the [useMemo])
    builds when both helpers can be called and every clock reading is
    [now].  [activitiesMemo] below is the factory as the component body
    evaluates it: there each helper call goes through the binding in scope
    and reads the clock anew. *)
Definition activities (now : Z) (issues : list Issue) (prs : list PullRequest)
  : list Activity :=
  let combined := [] in
  let combined :=
    forEach (firstn 10 prs) (fun c pr => push c (prActivity now pr)) combined in
  let combined :=
    forEach (firstn 10 issues)
      (fun c issue => push c (issueActivity now issue)) combined in
  let combined := Js.sort (byParsedTime now) combined in
  firstn 5 combined.

(** [arr.map((x, index) => f x index)]. *)
Fixpoint mapFrom {A B} (f : A -> Z -> B) (i : Z) (l : list A) : list B :=
  match l with
  | [] => []
  | x :: rest => f x i :: mapFrom f (i + 1) rest
  end.

Definition mapIndexed {A B} (f : A -> Z -> B) (l : list A) : list B :=
  mapFrom f 0 l.

Definition months : list string := ["May"; "Jun"; "Jul"; "Aug"; "Sep"; "Oct"].

(** [monthDate] and [nextMonth] of the bucket at [index]. *)
Definition monthDate (tz now index : Z) : Z :=
  Js.newDate tz (Js.getFullYear tz now) (Js.getMonth tz now - (5 - index)) 1.

Definition nextMonth (tz now index : Z) : Z :=
  Js.newDate tz (Js.getFullYear tz now) (Js.getMonth tz now - (4 - index)) 1.

(** [createdAt >= monthDate && createdAt < nextMonth]. *)
Definition inMonth {A} `{Timestamped A} (tz now index : Z) (r : A) : bool :=
  Js.ge (effectiveTime r) (Some (monthDate tz now index))
  && Js.lt (effectiveTime r) (Some (nextMonth tz now index)).

(** The first declaration of [chartData] (the [useMemo]). *)
Definition chartData (tz now : Z) (issues : list Issue)
  (prs : list PullRequest) : list ChartDataPoint :=
  mapIndexed
    (fun month index =>
       let monthIssues := filter (inMonth tz now index) issues in
       let monthPRs := filter (inMonth tz now index) prs in
       let mergedPRs := filter (fun pr => merged pr) monthPRs in
       mkPoint month (sumComments monthIssues) (len mergedPRs))
    months.

(* ================================================================== *)
(** ** The second declarations and what the JSX reads *)
(* ================================================================== *)

(** [const stats: StatCard[] = [...]] ("Stats data"). *)
Definition mockStats : list StatCard :=
  [ mkStat 1 "Repository Views" "Last 7 days" 0 (-100) Eye;
    mkStat 2 "Issue Views" "Last 7 days" 0 (-100) FileText;
    mkStat 3 "Issue Applications" "Last 7 days" 0 0 FileText;
    mkStat 4 "Pull Requests Opened" "Last 7 days" 1 100 GitPullRequest;
    mkStat 5 "Pull Requests Merged" "Last 7 days" 1 100 GitMerge ].

(** [const activities: Activity[] = [...]] ("Last activity data"). *)
Definition mockActivities : list Activity :=
  [ mkActivity 1 TypePr 734
      "Fix React Server Components CVE vulnerabilities" None "2 days ago";
    mkActivity 2 TypeIssue 77
      "Add Invoice Expiration and Auto-Processing" (Some "1 new applicant")
      "3 months ago";
    mkActivity 3 TypePr 120
      "Clean Up Cargo Build Warnings #50" None "3 months ago";
    mkActivity 4 TypePr 119
      "Add Investor KYC and Verification System" None "3 months ago";
    mkActivity 5 TypeIssue 158
      "Feat: Add Comprehensive Error Recovery and Circuit Breaker Patterns (#110)"
      None "5 months ago" ].

(** [const chartData: ChartDataPoint[] = [...]] ("Applications history"). *)
Definition mockChartData : list ChartDataPoint :=
  [ mkPoint "May" 12 0; mkPoint "Jun" 18 0; mkPoint "Jul" 45 0;
    mkPoint "Aug" 32 0; mkPoint "Sep" 38 8; mkPoint "Oct" 28 12 ].

(** *** Evaluating the component body

    An evaluation may throw, and it may read the clock.  The state it
    threads is the number of [new Date()] evaluated so far; [clock k] is the
    time value that the [k]-th of them returns. *)
Definition Eval (A : Type) : Type := nat -> outcome (A * nat).

Definition retE {A} (a : A) : Eval A := fun k => Returned (a, k).

Definition bindE {A B} (m : Eval A) (f : A -> Eval B) : Eval B :=
  fun k => match m k with
           | Returned (a, k') => f a k'
           | Thrown e => Thrown e
           end.

Definition throwE {A} (err : string) : Eval A := fun _ => Thrown err.

Notation "x <~ m ;; f" := (bindE m (fun x => f))
  (at level 61, m at next level, right associativity).

(** [new Date().getTime()]. *)
Definition newDateNow (clock : nat -> Z) : Eval Z :=
  fun k => Returned (clock k, S k).

(** The values a name of the component body can be bound to: the three
    arrays, and the two arrow functions of lines 210 and 226. *)
Inductive binding : Type :=
| BStats (v : list StatCard)
| BActivities (v : list Activity)
| BChartData (v : list ChartDataPoint)
| BFormatTimeAgo
| BParseTimeAgo.

Definition scope := list (string * binding).

(** A declaration binds its name in front of the earlier bindings; a use of
    a name reads the nearest binding, and a name whose declaration has not
    been reached yet has none. *)
Definition declare (sc : scope) (d : string * binding) : scope := d :: sc.

Fixpoint resolve (name : string) (sc : scope) : option binding :=
  match sc with
  | [] => None
  | (n, v) :: rest => if String.eqb n name then Some v else resolve name rest
  end.

(** The calls [formatTimeAgo(date)] and [parseTimeAgo(timeAgo)]: the callee
    is whatever the name is bound to at the time of the call. *)
Definition callFormatTimeAgo (clock : nat -> Z) (sc : scope) (date : Js.num)
  : Eval string :=
  match resolve "formatTimeAgo" sc with
  | Some BFormatTimeAgo =>
      now <~ newDateNow clock ;; retE (formatTimeAgo now date)
  | _ => throwE "TypeError: formatTimeAgo is not a function"
  end.

Definition callParseTimeAgo (clock : nat -> Z) (sc : scope) (timeAgo : string)
  : Eval Z :=
  match resolve "parseTimeAgo" sc with
  | Some BParseTimeAgo =>
      now <~ newDateNow clock ;; retE (parseTimeAgo now timeAgo)
  | _ => throwE "TypeError: parseTimeAgo is not a function"
  end.

(** [r.updated_at ? formatTimeAgo(new Date(r.updated_at))
                 : formatTimeAgo(new Date(r.last_seen_at))]. *)
Definition timeAgoAt {A} `{Timestamped A} (clock : nat -> Z) (sc : scope)
  (r : A) : Eval string :=
  if truthy (updated_at r)
  then callFormatTimeAgo clock sc (dateOf (updated_at r))
  else callFormatTimeAgo clock sc (dateOf (last_seen_at r)).

(** The object literals pushed for a pull request and for an issue. *)
Definition prEntry (pr : PullRequest) (t : string) : Activity :=
  {| act_id := github_pr_id pr;
     act_type := TypePr;
     act_number := pr_number pr;
     act_title := pr_title pr;
     label := Some (if merged pr then "Merged"
                    else if String.eqb (pr_state pr) "open" then "Open"
                    else "Closed");
     timeAgo := t |}.

Definition issueEntry (issue : Issue) (t : string) : Activity :=
  {| act_id := github_issue_id issue;
     act_type := TypeIssue;
     act_number := issue_number issue;
     act_title := issue_title issue;
     label := if Js.lt (Some 0) (comments_count issue)
              then Some (plural (comments_count issue) "comment")
              else None;
     timeAgo := t |}.

(** [list.forEach(x => body)] with a body that may throw. *)
Fixpoint forEachE {A S} (l : list A) (body : S -> A -> Eval S) (s : S)
  : Eval S :=
  match l with
  | [] => retE s
  | x :: rest => s' <~ body s x ;; forEachE rest body s'
  end.

(** The comparator of the feed's sort. *)
Definition byParsedTimeE (clock : nat -> Z) (sc : scope) (a b : Activity)
  : Eval Js.num :=
  timeA <~ callParseTimeAgo clock sc (timeAgo a) ;;
  timeB <~ callParseTimeAgo clock sc (timeAgo b) ;;
  retE (Some (timeB - timeA)).

(** [Array.prototype.sort] with a comparator that may throw: the stable
    insertion of [Js.sort], the comparator being called as it goes. *)
Fixpoint insertE {A} (comparefn : A -> A -> Eval Js.num) (x : A) (l : list A)
  : Eval (list A) :=
  match l with
  | [] => retE [x]
  | y :: rest =>
      v <~ comparefn x y ;;
      if Js.positive v
      then (r <~ insertE comparefn x rest ;; retE (y :: r))
      else retE (x :: l)
  end.

Fixpoint sortE {A} (comparefn : A -> A -> Eval Js.num) (l : list A)
  : Eval (list A) :=
  match l with
  | [] => retE []
  | x :: rest => sorted <~ sortE comparefn rest ;; insertE comparefn x sorted
  end.

(** The factory of the first [stats]: [const now = new Date()] and the
    rest. *)
Definition statsMemo (clock : nat -> Z) (issues : list Issue)
  (prs : list PullRequest) : Eval (list StatCard) :=
  now <~ newDateNow clock ;; retE (stats now issues prs).

(** The factory of the first [activities], lines 168-207. *)
Definition activitiesMemo (clock : nat -> Z) (sc : scope)
  (issues : list Issue) (prs : list PullRequest) : Eval (list Activity) :=
  let combined := [] in
  combined <~ forEachE (firstn 10 prs)
                (fun c pr =>
                   t <~ timeAgoAt clock sc pr ;; retE (push c (prEntry pr t)))
                combined ;;
  combined <~ forEachE (firstn 10 issues)
                (fun c issue =>
                   t <~ timeAgoAt clock sc issue ;;
                   retE (push c (issueEntry issue t)))
                combined ;;
  combined <~ sortE (byParsedTimeE clock sc) combined ;;
  retE (firstn 5 combined).

(** The factory of the first [chartData]. *)
Definition chartDataMemo (tz : Z) (clock : nat -> Z) (issues : list Issue)
  (prs : list PullRequest) : Eval (list ChartDataPoint) :=
  now <~ newDateNow clock ;; retE (chartData tz now issues prs).

(** How the file is built.  With [const] kept ([Es2015]) the second
    declarations of [stats], [activities] and [chartData] are an early
    error and the module is never evaluated.  With every [const] compiled
    to [var] ([Es5]) a second declaration assigns the name again, and a name
    reads [undefined] until its own declaration has been reached. *)
Inductive Build : Type := Es2015 | Es5.

(** What the returned JSX hands to [StatsCard], [ActivityItem] and
    [ApplicationsChart]. *)
Record View : Type := mkView {
  view_stats : list StatCard;
  view_activities : list Activity;
  view_chartData : list ChartDataPoint
}.

(** One render of the component whose memos are computed (the state differs
    from that of the previous render): the declarations that bind [stats],
    [activities], [chartData] and the two helpers, in source order, and
    then the JSX. *)
Definition DashboardTab (build : Build) (tz : Z) (clock : nat -> Z)
  (st : Dash) : Eval View :=
  match build with
  | Es2015 =>
      throwE "SyntaxError: Identifier 'stats' has already been declared"
  | Es5 =>
      let sc := [] in
      v <~ statsMemo clock (st_issues st) (st_prs st) ;;
      let sc := declare sc ("stats", BStats v) in
      v <~ activitiesMemo clock sc (st_issues st) (st_prs st) ;;
      let sc := declare sc ("activities", BActivities v) in
      let sc := declare sc ("formatTimeAgo", BFormatTimeAgo) in
      let sc := declare sc ("parseTimeAgo", BParseTimeAgo) in
      v <~ chartDataMemo tz clock (st_issues st) (st_prs st) ;;
      let sc := declare sc ("chartData", BChartData v) in
      let sc := declare sc ("stats", BStats mockStats) in
      let sc := declare sc ("activities", BActivities mockActivities) in
      let sc := declare sc ("chartData", BChartData mockChartData) in
      match resolve "stats" sc, resolve "activities" sc,
            resolve "chartData" sc with
      | Some (BStats s), Some (BActivities a), Some (BChartData c) =>
          retE (mkView s a c)
      | _, _, _ => throwE "TypeError: Cannot read properties of undefined"
      end
  end.

(* ================================================================== *)
(** ** Reference definitions, in the words of the specification *)
(* ================================================================== *)

(** Section 4.2, "Window: [now - 7 days, now)" on the effective timestamp. *)
Definition inSevenDayWindow {A} `{Timestamped A} (now : Z) (r : A) : Prop :=
  exists t, effectiveTime r = Some t /\ now - 7 * 86400000 <= t /\ t < now.

(** The same window as a test. *)
Definition inSevenDayWindowb {A} `{Timestamped A} (now : Z) (r : A) : bool :=
  match effectiveTime r with
  | Some t => (now - 7 * 86400000 <=? t) && (t <? now)
  | None => false
  end.

(** The effective timestamp is a valid time not earlier than [lo]. *)
Definition datedSince {A} `{Timestamped A} (lo : Z) (r : A) : Prop :=
  exists t, effectiveTime r = Some t /\ lo <= t.

Definition datedSinceb {A} `{Timestamped A} (lo : Z) (r : A) : bool :=
  match effectiveTime r with
  | Some t => lo <=? t
  | None => false
  end.

(** What one counted issue, and one counted pull request, adds to the
    values of the five metrics. *)
Definition issueTally (issue : Issue) : list Z :=
  [0; 1; match comments_count issue with Some n => n | None => 0 end; 0; 0].

Definition prTally (pr : PullRequest) : list Z :=
  [0; 0; 0; if String.eqb (pr_state pr) "open" then 1 else 0;
   if merged pr then 1 else 0].

Definition addEach (a b : list Z) : list Z :=
  map (fun p => fst p + snd p) (combine a b).

(** "Count of ... in window". *)
Fixpoint countIf {A} (p : A -> bool) (l : list A) : Z :=
  match l with
  | [] => 0
  | x :: rest => (if p x then 1 else 0) + countIf p rest
  end.

(** "Sum of [comments_count] over issues ... (0 if absent)". *)
Fixpoint commentsOver (p : Issue -> bool) (l : list Issue) : Z :=
  match l with
  | [] => 0
  | x :: rest =>
      (if p x then match comments_count x with Some n => n | None => 0 end
       else 0) + commentsOver p rest
  end.



(** Section 4.3: the feed as the specification words it. *)
Definition feedSpec (now : Z) (issues : list Issue) (prs : list PullRequest)
  : list Activity :=
  let prEntries := map (prActivity now) (firstn 10 prs) in
  let issueEntries := map (issueActivity now) (firstn 10 issues) in
  firstn 5 (Js.sort (byParsedTime now) (prEntries ++ issueEntries)).

(** The bindings the feed's factory would find had the two helpers been
    declared before it. *)
Definition helpersDeclared : scope :=
  declare (declare [] ("formatTimeAgo", BFormatTimeAgo))
    ("parseTimeAgo", BParseTimeAgo).

(** Descending order by a numeric key. *)
Definition descending {A} (key : A -> Z) (a b : A) : Prop := key b <= key a.

(** Section 4.4: the coarse bucket of a timestamp. *)
Inductive Bucket : Type :=
| JustNow
| Minutes (n : Z)
| Hours (n : Z)
| Days (n : Z)
| Months (n : Z).

Definition bucketOf (now t : Z) : Bucket :=
  let elapsed := now - t in
  let minutes := elapsed / 60000 in
  let hours := elapsed / 3600000 in
  let days := elapsed / 86400000 in
  if minutes <? 1 then JustNow
  else if minutes <? 60 then Minutes minutes
  else if hours <? 24 then Hours hours
  else if days <? 30 then Days days
  else Months (days / 30).

(** The label of a bucket ("each unit pluralizes when count <> 1") and the
    offset from [now] that the label stands for. *)
Definition bucketLabel (b : Bucket) : string :=
  match b with
  | JustNow => "just now"
  | Minutes n => plural (Some n) "minute" ++ " ago"
  | Hours n => plural (Some n) "hour" ++ " ago"
  | Days n => plural (Some n) "day" ++ " ago"
  | Months n => plural (Some n) "month" ++ " ago"
  end%string.

Definition bucketOffset (b : Bucket) : Z :=
  match b with
  | JustNow => 0
  | Minutes n => n * 60000
  | Hours n => n * 3600000
  | Days n => n * 86400000
  | Months n => n * 30 * 86400000
  end.

(** Section 4.5: the full six-month span, from the start of the first bucket
    to the end of the last. *)
Definition inSpan {A} `{Timestamped A} (tz now : Z) (r : A) : bool :=
  Js.ge (effectiveTime r) (Some (monthDate tz now 0))
  && Js.lt (effectiveTime r) (Some (nextMonth tz now 5)).

Definition sumZ (l : list Z) : Z := fold_right Z.add 0 l.

(** Section 3: the short label of a calendar month (0 = January). *)
Definition shortMonthLabel (m : Z) : string :=
  nth (Z.to_nat m)
    ["Jan"; "Feb"; "Mar"; "Apr"; "May"; "Jun";
     "Jul"; "Aug"; "Sep"; "Oct"; "Nov"; "Dec"] "".

(** The calendar month each bucket of the chart starts in. *)
Definition bucketMonths (tz now : Z) : list string :=
  map (fun index => shortMonthLabel (Js.getMonth tz (monthDate tz now index)))
    [0; 1; 2; 3; 4; 5].

(** What one project's fetch delivers to the unified collection: its tagged
    records, or nothing when the request fails. *)
Definition issuesDelivered (api : Client) (p : Project) : list Issue :=
  match getProjectIssues api (id p) with
  | Returned response => map (tagIssue p) (orEmpty (issues response))
  | Thrown _ => []
  end.

Definition prsDelivered (api : Client) (p : Project) : list PullRequest :=
  match getProjectPRs api (id p) with
  | Returned response => map (tagPR p) (orEmpty (prs response))
  | Thrown _ => []
  end.

(* ================================================================== *)
(** ** Sample data *)
(* ================================================================== *)

Module Sample.

(** 2025-01-15T00:00:00Z. *)
Definition now : Z := 1736899200000.

Definition issueAt (f : tsField) : Issue :=
  mkIssue 22 2 "B issue" (Some 3) "open" f TsAbsent None.

Definition prAt (f : tsField) : PullRequest :=
  mkPR 11 1 "A pr" "closed" true f TsAbsent None.

(** An issue that carries neither timestamp. *)
Definition undated : Issue :=
  mkIssue 7 70 "undated" None "open" TsAbsent TsAbsent None.

Definition projectA : Project := mkProject "a" "org/a" "active".
Definition projectB : Project := mkProject "b" "org/b" "active".

(** A client whose requests for project "a" fail, and whose responses for
    every other project carry one record. *)
Definition failingForA : Client :=
  {| getProjectIssues := fun pid =>
       if String.eqb pid "a" then Thrown "network"
       else Returned {| issues := Some [issueAt (TsDate (now - 86400000))] |};
     getProjectPRs := fun pid =>
       if String.eqb pid "a" then Thrown "network"
       else Returned {| prs := Some [prAt (TsDate (now - 7200000))] |} |}.

(** A client whose responses for project "a" lack their list. *)
Definition nullForA : Client :=
  {| getProjectIssues := fun pid =>
       if String.eqb pid "a" then Returned {| issues := None |}
       else Returned {| issues := Some [issueAt (TsDate (now - 86400000))] |};
     getProjectPRs := fun pid =>
       if String.eqb pid "a" then Returned {| prs := None |}
       else Returned {| prs := Some [prAt (TsDate (now - 7200000))] |} |}.

Definition emptyDash : Dash := mkDash [] [] true.


(** A clock that advances by one millisecond per reading. *)
Definition clock (k : nat) : Z := now + Z.of_nat k.


End Sample.

(* ================================================================== *)
(** ** The effects: initial load and periodic refresh *)
(* ================================================================== *)

(** The two [useEffect] calls of the component, over an explicit host that
    holds the running intervals and records the calls of [loadData].

    React's contract for [useEffect(effect, deps)] is modelled as follows:
    after the first render every effect runs; after a later render the
    effects whose dependency array changed (by identity, [Object.is]) run
    again, their previous cleanups first; on unmount the cleanups run.  An
    array or a function prop is therefore a value with an identity. *)

Record ProjectsProp : Type := mkProjects {
  ref : nat;                (* identity of the array *)
  elems : list Project
}.

Record DashboardTabProps : Type := mkProps {
  props_selectedProjects : ProjectsProp;
  props_onRefresh : option nat    (* identity of the callback, when given *)
}.

(** A running interval: its handle, its delay in milliseconds, and the
    selection that the [loadData] of its callback's closure reads. *)
Record Interval : Type := mkInterval {
  handle : nat;
  delay : Z;
  captured : list Project
}.

Record Host : Type := mkHost {
  intervals : list Interval;
  nextHandle : nat;
  loadCalls : list (list Project)   (* the selection of each [loadData()] *)
}.

Definition callLoadData (selection : list Project) (h : Host) : Host :=
  mkHost (intervals h) (nextHandle h) (loadCalls h ++ [selection]).

(** [setInterval(() => { loadData(); }, d)]: returns the new handle. *)
Definition setInterval (d : Z) (selection : list Project) (h : Host)
  : Host * nat :=
  (mkHost (intervals h ++ [mkInterval (nextHandle h) d selection])
     (S (nextHandle h)) (loadCalls h),
   nextHandle h).

Definition clearInterval (interval : nat) (h : Host) : Host :=
  mkHost (filter (fun iv => negb (handle iv =? interval)%nat) (intervals h))
    (nextHandle h) (loadCalls h).

(** [useEffect(() => { loadData(); }, [selectedProjects])]. *)
Definition loadEffect (props : DashboardTabProps) (h : Host) : Host :=
  callLoadData (elems (props_selectedProjects props)) h.

(** [useEffect(() => { if (onRefresh) { const interval = setInterval(...,
    30000); return () => clearInterval(interval); } },
    [onRefresh, selectedProjects])]: the host after the effect, and the
    handle its cleanup clears, if it returned one. *)
Definition refreshEffect (props : DashboardTabProps) (h : Host)
  : Host * option nat :=
  match props_onRefresh props with
  | Some _ =>
      let (h', interval) :=
        setInterval 30000 (elems (props_selectedProjects props)) h in
      (h', Some interval)
  | None => (h, None)
  end.

Definition runCleanup (cleanup : option nat) (h : Host) : Host :=
  match cleanup with
  | Some interval => clearInterval interval h
  | None => h
  end.

(** What React keeps for a mounted component: the dependencies each effect
    last ran with, and the cleanup of the refresh effect. *)
Record Mounted : Type := mkMounted {
  loadDeps : nat;
  refreshDeps : option nat * nat;
  cleanup : option nat
}.

Record World : Type := mkWorld {
  host : Host;
  component : option Mounted
}.

Definition sameCallback (a b : option nat) : bool :=
  match a, b with
  | Some x, Some y => (x =? y)%nat
  | None, None => true
  | _, _ => false
  end.

Definition render (props : DashboardTabProps) (w : World) : World :=
  let sel := props_selectedProjects props in
  let deps := (props_onRefresh props, ref sel) in
  match component w with
  | None =>
      let h1 := loadEffect props (host w) in
      let (h2, c) := refreshEffect props h1 in
      mkWorld h2 (Some (mkMounted (ref sel) deps c))
  | Some m =>
      let loadChanged := negb (loadDeps m =? ref sel)%nat in
      let refreshChanged :=
        negb (sameCallback (fst (refreshDeps m)) (props_onRefresh props)
              && (snd (refreshDeps m) =? ref sel)%nat) in
      let h0 := if refreshChanged then runCleanup (cleanup m) (host w)
                else host w in
      let h1 := if loadChanged then loadEffect props h0 else h0 in
      let (h2, c) := if refreshChanged then refreshEffect props h1
                     else (h1, cleanup m) in
      mkWorld h2 (Some (mkMounted (ref sel) deps c))
  end.

Definition unmount (w : World) : World :=
  match component w with
  | Some m => mkWorld (runCleanup (cleanup m) (host w)) None
  | None => w
  end.

(** The timer fires: the callback of the interval, if it still runs, calls
    the [loadData] of its closure. *)
Definition tick (interval : nat) (w : World) : World :=
  match find (fun iv => (handle iv =? interval)%nat) (intervals (host w)) with
  | Some iv => mkWorld (callLoadData (captured iv) (host w)) (component w)
  | None => w
  end.

Inductive event : Type :=
| Render (props : DashboardTabProps)
| Unmount
| Tick (interval : nat).

Definition step (w : World) (e : event) : World :=
  match e with
  | Render props => render props w
  | Unmount => unmount w
  | Tick interval => tick interval w
  end.

Definition initialWorld : World := mkWorld (mkHost [] 0 []) None.

Definition run (events : list event) : World :=
  fold_left step events initialWorld.

(** The props of the renders of a history, and those of its last render. *)
Fixpoint rendered (events : list event) : list DashboardTabProps :=
  match events with
  | [] => []
  | Render props :: rest => props :: rendered rest
  | _ :: rest => rendered rest
  end.

Definition lastRendered (events : list event) : option DashboardTabProps :=
  last (map Some (rendered events)) None.

(** An array identity stands for one array: renders that pass the same
    reference pass the same elements. *)
Definition stableRefs (events : list event) : Prop :=
  forall p q, In p (rendered events) -> In q (rendered events) ->
              ref (props_selectedProjects p) = ref (props_selectedProjects q)
              -> elems (props_selectedProjects p)
                 = elems (props_selectedProjects q).

(* ================================================================== *)
(** ** Vocabulary for further properties of the component *)
(* ================================================================== *)

(** The time a record is ordered by, when its effective timestamp is valid. *)
Definition timeKey {A} `{Timestamped A} (r : A) : Z :=
  Js.orZero (effectiveTime r).

(** [a] is dated, and [b] is dated no later than [a]. *)
Definition notOlder {A} `{Timestamped A} (a b : A) : Prop :=
  exists ta tb,
    effectiveTime a = Some ta /\ effectiveTime b = Some tb /\ tb <= ta.

(** The record's effective timestamp is the time value [k]. *)
Definition datedAt {A} `{Timestamped A} (k : Z) (r : A) : bool :=
  match effectiveTime r with
  | Some t => t =? k
  | None => false
  end.

(** Every record of every successful response for the selected projects has
    a valid effective timestamp. *)
Definition datedResponses (api : Client) (ps : list Project) : Prop :=
  (forall p response r,
      In p ps -> getProjectIssues api (id p) = Returned response ->
      In r (orEmpty (issues response)) -> effectiveTime r <> Js.NaN)
  /\ (forall p response r,
         In p ps -> getProjectPRs api (id p) = Returned response ->
         In r (orEmpty (prs response)) -> effectiveTime r <> Js.NaN).

(** Further sample data. *)
Module Sample2.

(** A client with two projects: "a" delivers two issues and one pull
    request, "b" one issue and one pull request; every record is dated. *)
Definition twoProjects : Client :=
  {| getProjectIssues := fun pid =>
       if String.eqb pid "a"
       then Returned {| issues :=
              Some [Sample.issueAt (TsDate (Sample.now - 172800000));
                    Sample.issueAt (TsDate (Sample.now - 3600000))] |}
       else Returned {| issues :=
              Some [Sample.issueAt (TsDate (Sample.now - 86400000))] |};
     getProjectPRs := fun pid =>
       if String.eqb pid "a"
       then Returned {| prs :=
              Some [Sample.prAt (TsDate (Sample.now - 7200000))] |}
       else Returned {| prs :=
              Some [Sample.prAt (TsDate (Sample.now - 7200000))] |} |}.

Definition projects : list Project := [Sample.projectA; Sample.projectB].

(** A pull request that carries neither timestamp. *)
Definition undatedPR : PullRequest :=
  mkPR 9 90 "undated pr" "open" false TsAbsent TsAbsent None.

End Sample2.

(* ================================================================== *)
(** ** Proof automation *)
(* ================================================================== *)

(** Evaluates every [includes] test whose arguments are closed strings. *)
Ltac eval_includes :=
  repeat match goal with
         | |- context [Js.includes ?s ?n] =>
             let b := eval vm_compute in (Js.includes s n) in
             change (Js.includes s n) with b
         end;
  cbv iota.

(** Settles a goal about division by constants. *)
Ltac div_exact := Z.div_mod_to_equations; lia.

(** Settles an equation between two lists of numbers, entry by entry. *)
Ltac each_entry :=
  repeat (apply (f_equal2 (@cons Z)); [lia|]); reflexivity.

(* ================================================================== *)
(** ** The fetch orchestration *)
(* ================================================================== *)

Lemma fetchIssuesOf_delivered api p :
  fetchIssuesOf api p = Returned (issuesDelivered api p).
Proof.
  unfold fetchIssuesOf, issuesDelivered, tryCatch, bind, ret.
  destruct (getProjectIssues api (id p)); reflexivity.
Qed.

Lemma fetchPRsOf_delivered api p :
  fetchPRsOf api p = Returned (prsDelivered api p).
Proof.
  unfold fetchPRsOf, prsDelivered, tryCatch, bind, ret.
  destruct (getProjectPRs api (id p)); reflexivity.
Qed.

Lemma promiseAll_returned {A B} (f : A -> outcome B) (g : A -> B) l :
  (forall x, f x = Returned (g x)) ->
  promiseAll (map f l) = Returned (map g l).
Proof.
  intros Hf. induction l as [|x l IH]; simpl.
  - reflexivity.
  - rewrite Hf, IH. reflexivity.
Qed.

Lemma concat_map_flat_map {A B} (g : A -> list B) l :
  List.concat (map g l) = flat_map g l.
Proof.
  induction l as [|x l IH]; simpl; [reflexivity | now rewrite IH].
Qed.

(** The outer [try] block always runs to its end: its [catch] is never
    entered. *)
Lemma loadDataBody_returns api ps st :
  loadDataBody api ps st =
  Returned
    (if (List.length ps =? 0)%nat
     then setIsLoading false (setPrs [] (setIssues [] st))
     else setPrs (Js.sort byRecency (flat_map (prsDelivered api) ps))
            (setIssues (Js.sort byRecency (flat_map (issuesDelivered api) ps))
               st)).
Proof.
  unfold loadDataBody.
  destruct (List.length ps =? 0)%nat; [reflexivity|].
  rewrite (promiseAll_returned _ _ ps (fetchIssuesOf_delivered api)).
  rewrite (promiseAll_returned _ _ ps (fetchPRsOf_delivered api)).
  cbn [bind ret]. now rewrite !concat_map_flat_map.
Qed.

Lemma loadData_issues api ps st :
  st_issues (loadData api ps st) =
  Js.sort byRecency (flat_map (issuesDelivered api) ps).
Proof.
  unfold loadData. rewrite loadDataBody_returns.
  destruct ps; reflexivity.
Qed.

Lemma loadData_prs api ps st :
  st_prs (loadData api ps st) =
  Js.sort byRecency (flat_map (prsDelivered api) ps).
Proof.
  unfold loadData. rewrite loadDataBody_returns.
  destruct ps; reflexivity.
Qed.

Lemma loadData_isLoading api ps st : isLoading (loadData api ps st) = false.
Proof. reflexivity. Qed.

Lemma flat_map_skip {A B} (g : A -> list B) before q after :
  g q = [] -> flat_map g (before ++ q :: after) = flat_map g (before ++ after).
Proof.
  intros Hq. rewrite !flat_map_app. simpl. now rewrite Hq.
Qed.

(** C8. When the request for one project's issues (or PRs) fails, the
    callback catches the failure and returns the empty list for that
    project; the cycle runs to completion with the loading flag cleared; the
    unified collection of that kind is exactly what the other projects
    deliver, and the collection of the other kind, the failing project's
    share included, is what every project delivers. *)
Theorem fetch_failure_isolated api before q after st :
  let ps := before ++ q :: after in
  (exists st', loadDataBody api ps (setIsLoading true st) = Returned st'
               /\ loadData api ps st = setIsLoading false st')
  /\ ((exists err, getProjectIssues api (id q) = Thrown err) ->
      fetchIssuesOf api q = Returned []
      /\ st_issues (loadData api ps st) =
         Js.sort byRecency (flat_map (issuesDelivered api) (before ++ after))
      /\ st_issues (loadData api ps st) =
         st_issues (loadData api (before ++ after) st)
      /\ st_prs (loadData api ps st) =
         Js.sort byRecency (flat_map (prsDelivered api) ps))
  /\ ((exists err, getProjectPRs api (id q) = Thrown err) ->
      fetchPRsOf api q = Returned []
      /\ st_prs (loadData api ps st) =
         Js.sort byRecency (flat_map (prsDelivered api) (before ++ after))
      /\ st_prs (loadData api ps st) =
         st_prs (loadData api (before ++ after) st)
      /\ st_issues (loadData api ps st) =
         Js.sort byRecency (flat_map (issuesDelivered api) ps)).
Proof.
  intros ps. split; [|split].
  - eexists. split; [apply loadDataBody_returns|].
    unfold loadData. now rewrite loadDataBody_returns.
  - intros [err Herr].
    assert (Hq : issuesDelivered api q = [])
      by (unfold issuesDelivered; now rewrite Herr).
    repeat split.
    + now rewrite fetchIssuesOf_delivered, Hq.
    + rewrite loadData_issues. unfold ps. now rewrite flat_map_skip.
    + rewrite !loadData_issues. unfold ps. now rewrite flat_map_skip.
    + apply loadData_prs.
  - intros [err Herr].
    assert (Hq : prsDelivered api q = [])
      by (unfold prsDelivered; now rewrite Herr).
    repeat split.
    + now rewrite fetchPRsOf_delivered, Hq.
    + rewrite loadData_prs. unfold ps. now rewrite flat_map_skip.
    + rewrite !loadData_prs. unfold ps. now rewrite flat_map_skip.
    + apply loadData_issues.
Qed.

Lemma fetch_failure_isolated_witness :
  let api := Sample.failingForA in
  let ps := [Sample.projectB] ++ Sample.projectA :: [Sample.projectB] in
  (exists err, getProjectIssues api (id Sample.projectA) = Thrown err)
  /\ (exists err, getProjectPRs api (id Sample.projectA) = Thrown err)
  /\ fetchIssuesOf api Sample.projectA = Returned []
  /\ fetchPRsOf api Sample.projectA = Returned []
  /\ List.length (st_issues (loadData api ps Sample.emptyDash)) = 2%nat
  /\ st_issues (loadData api ps Sample.emptyDash) =
     st_issues (loadData api [Sample.projectB; Sample.projectB]
                  Sample.emptyDash)
  /\ st_prs (loadData api ps Sample.emptyDash) =
     st_prs (loadData api [Sample.projectB; Sample.projectB]
               Sample.emptyDash).
Proof.
  intros api ps.
  assert (Hi : exists err,
             getProjectIssues api (id Sample.projectA) = Thrown err)
    by (exists "network"; reflexivity).
  assert (Hp : exists err,
             getProjectPRs api (id Sample.projectA) = Thrown err)
    by (exists "network"; reflexivity).
  destruct (fetch_failure_isolated api [Sample.projectB] Sample.projectA
              [Sample.projectB] Sample.emptyDash) as (_ & HI & HP).
  destruct (HI Hi) as (H1 & _ & H3 & _).
  destruct (HP Hp) as (H4 & _ & H6 & _).
  split; [exact Hi|]. split; [exact Hp|].
  split; [exact H1|]. split; [exact H4|].
  split; [reflexivity|]. split; [exact H3 | exact H6].
Defined.

Lemma flat_map_all_nil {A B} (g : A -> list B) l :
  (forall x, In x l -> g x = []) -> flat_map g l = [].
Proof.
  intros Hall. induction l as [|x l IH]; [reflexivity|]. simpl.
  rewrite (Hall x (or_introl eq_refl)). apply IH.
  intros y Hy. apply Hall. now right.
Qed.

(** When every request fails, both unified collections are empty and every
    derived value has its empty-input shape. *)
Lemma every_fetch_failing api ps st tz now :
  (forall p, In p ps ->
             (exists err, getProjectIssues api (id p) = Thrown err)
             /\ (exists err, getProjectPRs api (id p) = Thrown err)) ->
  let st' := loadData api ps st in
  st_issues st' = [] /\ st_prs st' = [] /\ isLoading st' = false
  /\ map value (stats now (st_issues st') (st_prs st')) = [0; 0; 0; 0; 0]
  /\ activities now (st_issues st') (st_prs st') = []
  /\ map applications (chartData tz now (st_issues st') (st_prs st')) =
     [0; 0; 0; 0; 0; 0]
  /\ map point_merged (chartData tz now (st_issues st') (st_prs st')) =
     [0; 0; 0; 0; 0; 0].
Proof.
  intros Hall st'.
  assert (Hsi : st_issues st' = []).
  { subst st'. rewrite loadData_issues, flat_map_all_nil; [reflexivity|].
    intros p Hp. destruct (Hall p Hp) as [[err Herr] _].
    unfold issuesDelivered. now rewrite Herr. }
  assert (Hsp : st_prs st' = []).
  { subst st'. rewrite loadData_prs, flat_map_all_nil; [reflexivity|].
    intros p Hp. destruct (Hall p Hp) as [_ [err Herr]].
    unfold prsDelivered. now rewrite Herr. }
  rewrite Hsi, Hsp. repeat split.
Qed.

(** C10. When a request resolves with a response whose [issues]
    (respectively [prs]) field is null or missing, the callback returns the
    empty list for that project without failing; the cycle completes, and
    the unified collections hold exactly what the other projects deliver. *)
Theorem null_list_treated_as_empty api before q after st :
  let ps := before ++ q :: after in
  (exists st', loadDataBody api ps (setIsLoading true st) = Returned st'
               /\ loadData api ps st = setIsLoading false st')
  /\ (getProjectIssues api (id q) = Returned {| issues := None |} ->
      fetchIssuesOf api q = Returned []
      /\ st_issues (loadData api ps st) =
         Js.sort byRecency (flat_map (issuesDelivered api) (before ++ after))
      /\ st_prs (loadData api ps st) =
         Js.sort byRecency (flat_map (prsDelivered api) ps))
  /\ (getProjectPRs api (id q) = Returned {| prs := None |} ->
      fetchPRsOf api q = Returned []
      /\ st_prs (loadData api ps st) =
         Js.sort byRecency (flat_map (prsDelivered api) (before ++ after))
      /\ st_issues (loadData api ps st) =
         Js.sort byRecency (flat_map (issuesDelivered api) ps)).
Proof.
  intros ps. split; [|split].
  - eexists. split; [apply loadDataBody_returns|].
    unfold loadData. now rewrite loadDataBody_returns.
  - intros Hnull.
    assert (Hq : issuesDelivered api q = [])
      by (unfold issuesDelivered; now rewrite Hnull).
    repeat split.
    + now rewrite fetchIssuesOf_delivered, Hq.
    + rewrite loadData_issues. unfold ps. now rewrite flat_map_skip.
    + apply loadData_prs.
  - intros Hnull.
    assert (Hq : prsDelivered api q = [])
      by (unfold prsDelivered; now rewrite Hnull).
    repeat split.
    + now rewrite fetchPRsOf_delivered, Hq.
    + rewrite loadData_prs. unfold ps. now rewrite flat_map_skip.
    + apply loadData_issues.
Qed.

Lemma null_list_treated_as_empty_witness :
  let api := Sample.nullForA in
  let ps := [] ++ Sample.projectA :: [Sample.projectB] in
  getProjectIssues api (id Sample.projectA) = Returned {| issues := None |}
  /\ getProjectPRs api (id Sample.projectA) = Returned {| prs := None |}
  /\ fetchIssuesOf api Sample.projectA = Returned []
  /\ fetchPRsOf api Sample.projectA = Returned []
  /\ st_issues (loadData api ps Sample.emptyDash) =
     Js.sort byRecency (flat_map (issuesDelivered api) [Sample.projectB])
  /\ st_prs (loadData api ps Sample.emptyDash) =
     Js.sort byRecency (flat_map (prsDelivered api) [Sample.projectB]).
Proof.
  intros api ps.
  destruct (null_list_treated_as_empty api [] Sample.projectA
              [Sample.projectB] Sample.emptyDash) as (_ & HI & HP).
  destruct (HI eq_refl) as (H1 & H2 & _).
  destruct (HP eq_refl) as (H3 & H4 & _).
  split; [reflexivity|]. split; [reflexivity|].
  split; [exact H1|]. split; [exact H3|]. split; [exact H2 | exact H4].
Defined.

(* ================================================================== *)
(** ** What reaches the JSX *)
(* ================================================================== *)

Lemma bindE_returned {A B} (m : Eval A) (f : A -> Eval B) k a k' :
  m k = Returned (a, k') -> bindE m f k = f a k'.
Proof. intros E. unfold bindE. now rewrite E. Qed.

Lemma bindE_thrown {A B} (m : Eval A) (f : A -> Eval B) k e :
  m k = Thrown e -> bindE m f k = Thrown e.
Proof. intros E. unfold bindE. now rewrite E. Qed.

(** A render of the [Es5] build reaches the JSX exactly when the factory of
    the first [activities] returns, and then the JSX reads the three fixed
    arrays. *)
Lemma DashboardTab_Es5 tz clock st k :
  DashboardTab Es5 tz clock st k =
  match activitiesMemo clock
          [("stats", BStats (stats (clock k) (st_issues st) (st_prs st)))]
          (st_issues st) (st_prs st) (S k) with
  | Returned (_, k') =>
      Returned (mkView mockStats mockActivities mockChartData, S k')
  | Thrown e => Thrown e
  end.
Proof.
  unfold DashboardTab, statsMemo, chartDataMemo, declare.
  unfold bindE at 1. unfold bindE at 1. cbn [newDateNow retE].
  unfold bindE at 1.
  destruct (activitiesMemo clock _ (st_issues st) (st_prs st) (S k))
    as [[a k']|e]; reflexivity.
Qed.

Lemma activitiesMemo_nil clock sc k :
  activitiesMemo clock sc [] [] k = Returned ([], k).
Proof. reflexivity. Qed.

Lemma timeAgoAt_unbound {A} `{Timestamped A} clock sc (r : A) k :
  resolve "formatTimeAgo" sc = None ->
  timeAgoAt clock sc r k =
  Thrown "TypeError: formatTimeAgo is not a function".
Proof.
  intros E. unfold timeAgoAt, callFormatTimeAgo. rewrite E.
  now destruct (truthy (updated_at r)).
Qed.

Lemma activitiesMemo_unbound_pr clock sc issues pr prs k :
  resolve "formatTimeAgo" sc = None ->
  activitiesMemo clock sc issues (pr :: prs) k =
  Thrown "TypeError: formatTimeAgo is not a function".
Proof.
  intros E. unfold activitiesMemo. cbn [firstn forEachE].
  apply bindE_thrown, bindE_thrown, bindE_thrown.
  now apply timeAgoAt_unbound.
Qed.

Lemma activitiesMemo_unbound_issue clock sc issue issues k :
  resolve "formatTimeAgo" sc = None ->
  activitiesMemo clock sc (issue :: issues) [] k =
  Thrown "TypeError: formatTimeAgo is not a function".
Proof.
  intros E. unfold activitiesMemo. cbn [firstn forEachE].
  rewrite (bindE_returned _ _ k [] k) by reflexivity.
  apply bindE_thrown, bindE_thrown, bindE_thrown.
  now apply timeAgoAt_unbound.
Qed.




(* ================================================================== *)
(** ** The seven-day statistics *)
(* ================================================================== *)

Lemma len_filter_countIf {A} (p : A -> bool) l :
  len (filter p l) = countIf p l.
Proof.
  unfold len. induction l as [|x l IH]; simpl; [reflexivity|].
  destruct (p x); simpl List.length; lia.
Qed.

Lemma filter_filter {A} (p q : A -> bool) l :
  filter q (filter p l) = filter (fun x => p x && q x) l.
Proof.
  induction l as [|x l IH]; simpl; [reflexivity|].
  destruct (p x); simpl; [destruct (q x)|]; now rewrite IH.
Qed.

Lemma fold_comments_acc l acc :
  fold_left (fun sum issue => sum + Js.orZero (comments_count issue)) l acc =
  acc + sumComments l.
Proof.
  unfold sumComments. revert acc.
  induction l as [|x l IH]; intros acc; simpl; [lia|].
  rewrite IH, (IH (Js.orZero _)). lia.
Qed.

Lemma sumComments_cons x l :
  sumComments (x :: l) = Js.orZero (comments_count x) + sumComments l.
Proof.
  unfold sumComments at 1. simpl. apply fold_comments_acc.
Qed.

Lemma sumComments_filter (p : Issue -> bool) l :
  sumComments (filter p l) = commentsOver p l.
Proof.
  induction l as [|x l IH]; simpl; [reflexivity|].
  destruct (p x).
  - rewrite sumComments_cons, IH. unfold Js.orZero.
    destruct (comments_count x); reflexivity.
  - now rewrite IH.
Qed.

Lemma isRecent_datedSinceb {A} `{Timestamped A} now (r : A) :
  isRecent now r = datedSinceb (now - 7 * 86400000) r.
Proof.
  unfold isRecent, datedSinceb, sevenDaysAgo, Js.ge.
  destruct (effectiveTime r) as [t|]; [|reflexivity].
  f_equal.
Qed.

Lemma datedSinceb_iff {A} `{Timestamped A} lo (r : A) :
  datedSinceb lo r = true <-> datedSince lo r.
Proof.
  unfold datedSinceb, datedSince. destruct (effectiveTime r) as [t|].
  - rewrite Z.leb_le. split.
    + intros Hle. exists t. now split.
    + intros (t' & Ht & Hle). now injection Ht as <-.
  - split; [discriminate | intros (t & Ht & _); discriminate].
Qed.

Lemma countIf_ext {A} (p q : A -> bool) l :
  (forall x, p x = q x) -> countIf p l = countIf q l.
Proof.
  intros E. induction l as [|x l IH]; simpl; [reflexivity|].
  now rewrite E, IH.
Qed.

Lemma commentsOver_ext (p q : Issue -> bool) l :
  (forall x, p x = q x) -> commentsOver p l = commentsOver q l.
Proof.
  intros E. induction l as [|x l IH]; simpl; [reflexivity|].
  now rewrite E, IH.
Qed.

(** The values of the five metrics, as counts and sums over the records
    with a valid effective timestamp not earlier than [now - 7 days]. *)
Lemma stats_values now issues prs :
  map value (stats now issues prs) =
  [ 0;
    countIf (datedSinceb (now - 7 * 86400000)) issues;
    commentsOver (datedSinceb (now - 7 * 86400000)) issues;
    countIf (fun pr => datedSinceb (now - 7 * 86400000) pr
                       && String.eqb (pr_state pr) "open") prs;
    countIf (fun pr => datedSinceb (now - 7 * 86400000) pr && merged pr)
      prs ].
Proof.
  unfold stats. cbn [map value].
  rewrite !filter_filter, !len_filter_countIf, sumComments_filter.
  rewrite (countIf_ext (isRecent now)
             (datedSinceb (now - 7 * 86400000)) issues)
    by (intros x; apply isRecent_datedSinceb).
  rewrite (commentsOver_ext (isRecent now)
             (datedSinceb (now - 7 * 86400000)) issues)
    by (intros x; apply isRecent_datedSinceb).
  rewrite (countIf_ext
             (fun pr => isRecent now pr && String.eqb (pr_state pr) "open")
             (fun pr => datedSinceb (now - 7 * 86400000) pr
                        && String.eqb (pr_state pr) "open") prs)
    by (intros x; now rewrite isRecent_datedSinceb).
  rewrite (countIf_ext
             (fun pr => isRecent now pr && Bool.eqb (merged pr) true)
             (fun pr => datedSinceb (now - 7 * 86400000) pr && merged pr) prs)
    by (intros x; rewrite isRecent_datedSinceb; now destruct (merged x)).
  reflexivity.
Qed.

Lemma stats_counts_issue now issue issues prs :
  datedSince (now - 7 * 86400000) issue ->
  map value (stats now (issue :: issues) prs) =
  addEach (map value (stats now issues prs)) (issueTally issue).
Proof.
  intros Hd. apply datedSinceb_iff in Hd. rewrite !stats_values.
  cbn [countIf commentsOver addEach combine map fst snd issueTally].
  rewrite Hd. each_entry.
Qed.

Lemma stats_skips_issue now issue issues prs :
  ~ datedSince (now - 7 * 86400000) issue ->
  stats now (issue :: issues) prs = stats now issues prs.
Proof.
  intros Hd. rewrite <- datedSinceb_iff, <- isRecent_datedSinceb in Hd.
  unfold stats. cbn [filter].
  now destruct (isRecent now issue).
Qed.

Lemma stats_counts_pr now pr issues prs :
  datedSince (now - 7 * 86400000) pr ->
  map value (stats now issues (pr :: prs)) =
  addEach (map value (stats now issues prs)) (prTally pr).
Proof.
  intros Hd. apply datedSinceb_iff in Hd. rewrite !stats_values.
  cbn [countIf addEach combine map fst snd prTally].
  rewrite Hd. cbn [andb]. each_entry.
Qed.

Lemma stats_skips_pr now pr issues prs :
  ~ datedSince (now - 7 * 86400000) pr ->
  stats now issues (pr :: prs) = stats now issues prs.
Proof.
  intros Hd. rewrite <- datedSinceb_iff, <- isRecent_datedSinceb in Hd.
  unfold stats. cbn [filter].
  now destruct (isRecent now pr).
Qed.

(** C2, as the code has it. The calculator counts a record toward the 7-day
    metrics exactly when its effective timestamp is a valid time not
    earlier than [now - 7 days]; there is no upper bound.  Adding such an
    issue to the collection raises Issue Views by one and Issue
    Applications by its comment count; adding such a pull request raises
    Pull Requests Opened by one when its state is "open" and Pull Requests
    Merged by one when it is merged; adding any other record leaves all
    five metrics as they were.  A record at exactly [now - 7 days] is
    counted, one a millisecond earlier is not, and one dated [now] or later
    is counted. *)
Theorem seven_day_filter_lower_bound_only now (issue : Issue)
  (pr : PullRequest) issues prs :
  (datedSince (now - 7 * 86400000) issue ->
   map value (stats now (issue :: issues) prs) =
   addEach (map value (stats now issues prs)) (issueTally issue))
  /\ (~ datedSince (now - 7 * 86400000) issue ->
      stats now (issue :: issues) prs = stats now issues prs)
  /\ (datedSince (now - 7 * 86400000) pr ->
      map value (stats now issues (pr :: prs)) =
      addEach (map value (stats now issues prs)) (prTally pr))
  /\ (~ datedSince (now - 7 * 86400000) pr ->
      stats now issues (pr :: prs) = stats now issues prs)
  /\ (effectiveTime issue = Some (now - 7 * 86400000) ->
      map value (stats now (issue :: issues) prs) =
      addEach (map value (stats now issues prs)) (issueTally issue))
  /\ (effectiveTime issue = Some (now - 7 * 86400000 - 1) ->
      stats now (issue :: issues) prs = stats now issues prs)
  /\ (effectiveTime pr = Some (now - 7 * 86400000) ->
      map value (stats now issues (pr :: prs)) =
      addEach (map value (stats now issues prs)) (prTally pr))
  /\ (effectiveTime pr = Some (now - 7 * 86400000 - 1) ->
      stats now issues (pr :: prs) = stats now issues prs)
  /\ (forall t, now <= t -> effectiveTime issue = Some t ->
                map value (stats now (issue :: issues) prs) =
                addEach (map value (stats now issues prs)) (issueTally issue))
  /\ (forall t, now <= t -> effectiveTime pr = Some t ->
                map value (stats now issues (pr :: prs)) =
                addEach (map value (stats now issues prs)) (prTally pr)).
Proof.
  split; [apply stats_counts_issue|]. split; [apply stats_skips_issue|].
  split; [apply stats_counts_pr|]. split; [apply stats_skips_pr|].
  repeat split.
  - intros Ht. apply stats_counts_issue. eexists. split; [exact Ht | lia].
  - intros Ht. apply stats_skips_issue. intros (t & Ht' & Hle).
    rewrite Ht in Ht'. injection Ht' as <-. lia.
  - intros Ht. apply stats_counts_pr. eexists. split; [exact Ht | lia].
  - intros Ht. apply stats_skips_pr. intros (t & Ht' & Hle).
    rewrite Ht in Ht'. injection Ht' as <-. lia.
  - intros t Hle Ht. apply stats_counts_issue. exists t. split; [exact Ht | lia].
  - intros t Hle Ht. apply stats_counts_pr. exists t. split; [exact Ht | lia].
Qed.

Lemma seven_day_filter_lower_bound_only_witness :
  map value
    (stats Sample.now
       [Sample.issueAt (TsDate (Sample.now - 7 * 86400000))] []) =
  [0; 1; 3; 0; 0]
  /\ stats Sample.now []
       [Sample.prAt (TsDate (Sample.now - 7 * 86400000 - 1))] =
     stats Sample.now [] [].
Proof.
  destruct (seven_day_filter_lower_bound_only Sample.now
              (Sample.issueAt (TsDate (Sample.now - 7 * 86400000)))
              (Sample.prAt (TsDate (Sample.now - 7 * 86400000 - 1))) [] [])
    as (_ & _ & _ & _ & Hi & _ & _ & Hp & _).
  split; [exact (Hi eq_refl) | exact (Hp eq_refl)].
Defined.

(** C2, as stated, fails: an issue whose effective timestamp is [now] itself
    lies outside [now - 7 days, now) and is counted all the same. *)
Lemma seven_day_window_has_no_upper_bound :
  let r := Sample.issueAt (TsDate Sample.now) in
  isRecent Sample.now r = true
  /\ map value (stats Sample.now [r] []) = [0; 1; 3; 0; 0]
  /\ ~ inSevenDayWindow Sample.now r
  /\ ~ (forall (now : Z) (i : Issue),
           isRecent now i = true <-> inSevenDayWindow now i).
Proof.
  intros r.
  assert (Hout : ~ inSevenDayWindow Sample.now r).
  { intros (t & Ht & _ & Hlt). cbv in Ht. injection Ht as <-.
    revert Hlt. apply Z.lt_irrefl. }
  split; [reflexivity|]. split; [reflexivity|]. split; [exact Hout|].
  intros Hall. apply Hout. apply Hall. reflexivity.
Qed.

(** C4, as the code has it. For all collections and every evaluation time
    the calculator returns exactly five metrics, in the order Repository
    Views (the placeholder 0 with the negative change -100), Issue Views,
    Issue Applications, Pull Requests Opened, Pull Requests Merged.  With
    "in window" read as "effective timestamp valid and not earlier than
    [now - 7 days]", their values are the number of issues in the window,
    the sum of [comments_count] over those issues (0 when absent), the
    number of pull requests in the window whose state is "open", and the
    number of pull requests in the window whose [merged] is true. *)
Theorem stats_five_metrics now issues prs :
  List.length (stats now issues prs) = 5%nat
  /\ map stat_id (stats now issues prs) = [1; 2; 3; 4; 5]
  /\ map stat_title (stats now issues prs) =
     ["Repository Views"; "Issue Views"; "Issue Applications";
      "Pull Requests Opened"; "Pull Requests Merged"]
  /\ option_map change (nth_error (stats now issues prs) 0) = Some (-100)
  /\ map value (stats now issues prs) =
     [ 0;
       countIf (datedSinceb (now - 7 * 86400000)) issues;
       commentsOver (datedSinceb (now - 7 * 86400000)) issues;
       countIf (fun pr => datedSinceb (now - 7 * 86400000) pr
                          && String.eqb (pr_state pr) "open") prs;
       countIf (fun pr => datedSinceb (now - 7 * 86400000) pr && merged pr)
         prs ].
Proof.
  split; [reflexivity|]. split; [reflexivity|]. split; [reflexivity|].
  split; [reflexivity|]. apply stats_values.
Qed.

(** C4, as stated, fails: with the window [now - 7 days, now) of the
    specification, an issue dated [now] and a merged pull request dated an
    hour after [now] are not in the window, and yet Issue Views, Issue
    Applications and Pull Requests Merged count them. *)
Lemma stats_count_records_past_the_window :
  let issues := [Sample.issueAt (TsDate Sample.now)] in
  let prs := [Sample.prAt (TsDate (Sample.now + 3600000))] in
  map value (stats Sample.now issues prs) = [0; 1; 3; 0; 1]
  /\ [ 0;
       countIf (inSevenDayWindowb Sample.now) issues;
       commentsOver (inSevenDayWindowb Sample.now) issues;
       countIf (fun pr => inSevenDayWindowb Sample.now pr
                          && String.eqb (pr_state pr) "open") prs;
       countIf (fun pr => inSevenDayWindowb Sample.now pr && merged pr) prs ]
     = [0; 0; 0; 0; 0]
  /\ ~ (forall now issues prs,
           map value (stats now issues prs) =
           [ 0;
             countIf (inSevenDayWindowb now) issues;
             commentsOver (inSevenDayWindowb now) issues;
             countIf (fun pr => inSevenDayWindowb now pr
                                && String.eqb (pr_state pr) "open") prs;
             countIf (fun pr => inSevenDayWindowb now pr && merged pr) prs ]).
Proof.
  intros issues prs.
  split; [reflexivity|]. split; [reflexivity|].
  intros Hall. specialize (Hall Sample.now issues prs). discriminate Hall.
Qed.

(* ================================================================== *)
(** ** Sorting *)
(* ================================================================== *)

Section SortFacts.
Context {A : Type}.
Variable comparefn : A -> A -> Js.num.

Lemma insert_perm x l : Permutation (x :: l) (Js.insert comparefn x l).
Proof.
  induction l as [|y l IH]; simpl; [reflexivity|].
  destruct (Js.positive (comparefn x y)); [|reflexivity].
  rewrite perm_swap. now apply perm_skip.
Qed.

Lemma sort_perm l : Permutation l (Js.sort comparefn l).
Proof.
  induction l as [|x l IH]; simpl; [reflexivity|].
  rewrite <- insert_perm. now apply perm_skip.
Qed.

Lemma sort_In x l : In x l <-> In x (Js.sort comparefn l).
Proof.
  split; apply Permutation_in;
    [apply sort_perm | apply Permutation_sym, sort_perm].
Qed.

(** Sorting by a numeric key, most recent (largest) first. *)
Variable key : A -> Z.
Hypothesis comparefn_key : forall a b, comparefn a b = Some (key b - key a).

Lemma insert_sorted x l :
  Sorted (descending key) l ->
  Sorted (descending key) (Js.insert comparefn x l).
Proof.
  induction 1 as [|y l Hl IH Hhd]; simpl.
  - repeat constructor.
  - rewrite comparefn_key. unfold Js.positive.
    destruct (Z.ltb_spec 0 (key y - key x)) as [Hlt|Hge].
    + constructor; [exact IH|].
      destruct l as [|z l]; simpl.
      * constructor. unfold descending. lia.
      * rewrite comparefn_key. unfold Js.positive.
        destruct (Z.ltb_spec 0 (key z - key x)).
        -- constructor. now inversion Hhd.
        -- constructor. unfold descending. lia.
    + constructor; [now constructor|]. constructor. unfold descending. lia.
Qed.

Lemma sort_sorted l : Sorted (descending key) (Js.sort comparefn l).
Proof.
  induction l as [|x l IH]; simpl; [constructor | now apply insert_sorted].
Qed.

End SortFacts.





(* ================================================================== *)
(** ** The activity feed *)
(* ================================================================== *)

Lemma forEach_push {A B} (f : A -> B) l (acc : list B) :
  forEach l (fun c x => push c (f x)) acc = acc ++ map f l.
Proof.
  unfold forEach, push. revert acc.
  induction l as [|x l IH]; intros acc; simpl.
  - now rewrite app_nil_r.
  - rewrite IH, <- app_assoc. reflexivity.
Qed.

Lemma activities_feedSpec now issues prs :
  activities now issues prs = feedSpec now issues prs.
Proof. unfold activities, feedSpec. now rewrite !forEach_push. Qed.

(** With both helpers bound and a clock that stands still at [now], every
    step of the factory returns what the corresponding pure step computes. *)
Lemma timeAgoAt_declared {A} `{Timestamped A} now (r : A) k :
  timeAgoAt (fun _ => now) helpersDeclared r k =
  Returned (timeAgoOf now r, S k).
Proof.
  unfold timeAgoAt, timeAgoOf. now destruct (truthy (updated_at r)).
Qed.

Lemma forEachE_prs now l acc k :
  exists k',
    forEachE l
      (fun c pr =>
         t <~ timeAgoAt (fun _ => now) helpersDeclared pr ;;
         retE (push c (prEntry pr t))) acc k =
    Returned (forEach l (fun c pr => push c (prActivity now pr)) acc, k').
Proof.
  revert acc k. induction l as [|pr l IH]; intros acc k; cbn [forEachE].
  - eexists. reflexivity.
  - destruct (IH (push acc (prActivity now pr)) (S k)) as [k' E].
    exists k'. erewrite bindE_returned; [exact E|].
    now rewrite (bindE_returned _ _ _ _ _ (timeAgoAt_declared now pr k)).
Qed.

Lemma forEachE_issues now l acc k :
  exists k',
    forEachE l
      (fun c issue =>
         t <~ timeAgoAt (fun _ => now) helpersDeclared issue ;;
         retE (push c (issueEntry issue t))) acc k =
    Returned
      (forEach l (fun c issue => push c (issueActivity now issue)) acc, k').
Proof.
  revert acc k. induction l as [|issue l IH]; intros acc k; cbn [forEachE].
  - eexists. reflexivity.
  - destruct (IH (push acc (issueActivity now issue)) (S k)) as [k' E].
    exists k'. erewrite bindE_returned; [exact E|].
    now rewrite (bindE_returned _ _ _ _ _ (timeAgoAt_declared now issue k)).
Qed.

Lemma insertE_declared now x l k :
  exists k',
    insertE (byParsedTimeE (fun _ => now) helpersDeclared) x l k =
    Returned (Js.insert (byParsedTime now) x l, k').
Proof.
  revert k. induction l as [|y l IH]; intros k; cbn [insertE Js.insert].
  - eexists. reflexivity.
  - rewrite (bindE_returned _ _ k (byParsedTime now x y) (S (S k)))
      by reflexivity.
    destruct (Js.positive (byParsedTime now x y)).
    + destruct (IH (S (S k))) as [k' E]. exists k'.
      now rewrite (bindE_returned _ _ _ _ _ E).
    + eexists. reflexivity.
Qed.

Lemma sortE_declared now l k :
  exists k',
    sortE (byParsedTimeE (fun _ => now) helpersDeclared) l k =
    Returned (Js.sort (byParsedTime now) l, k').
Proof.
  revert k. induction l as [|x l IH]; intros k; cbn [sortE].
  - eexists. reflexivity.
  - destruct (IH k) as [k1 E1].
    destruct (insertE_declared now x (Js.sort (byParsedTime now) l) k1)
      as [k2 E2].
    exists k2. now rewrite (bindE_returned _ _ _ _ _ E1).
Qed.

Lemma activitiesMemo_declared now issues prs k :
  exists k',
    activitiesMemo (fun _ => now) helpersDeclared issues prs k =
    Returned (activities now issues prs, k').
Proof.
  unfold activitiesMemo, activities.
  destruct (forEachE_prs now (firstn 10 prs) [] k) as [k1 E1].
  rewrite (bindE_returned _ _ _ _ _ E1).
  destruct (forEachE_issues now (firstn 10 issues)
              (forEach (firstn 10 prs)
                 (fun c pr => push c (prActivity now pr)) []) k1)
    as [k2 E2].
  rewrite (bindE_returned _ _ _ _ _ E2).
  destruct (sortE_declared now
              (forEach (firstn 10 issues)
                 (fun c issue => push c (issueActivity now issue))
                 (forEach (firstn 10 prs)
                    (fun c pr => push c (prActivity now pr)) [])) k2)
    as [k3 E3].
  rewrite (bindE_returned _ _ _ _ _ E3).
  exists k3. reflexivity.
Qed.

(** C5. The factory of the feed calls [formatTimeAgo] for the first record
    it maps, and the component body declares [formatTimeAgo] only after the
    factory has run.  So with any pull request, or any issue, in the state
    the render throws inside the factory and there is no feed; only for two
    empty collections does the factory return, with the empty feed.  The
    algorithm itself is the one of the specification: with both helpers
    declared before it and a clock that stands still during the evaluation,
    the factory returns the first 10 pull requests and first 10 issues,
    mapped to entries, sorted by the time parsed back from the label, cut
    to at most 5. *)
Theorem feed_factory_throws_on_any_record :
  (forall tz clock issues pr prs loading k,
      DashboardTab Es5 tz clock (mkDash issues (pr :: prs) loading) k =
      Thrown "TypeError: formatTimeAgo is not a function")
  /\ (forall tz clock issue issues loading k,
         DashboardTab Es5 tz clock (mkDash (issue :: issues) [] loading) k =
         Thrown "TypeError: formatTimeAgo is not a function")
  /\ (forall clock sc k, activitiesMemo clock sc [] [] k = Returned ([], k))
  /\ (forall now issues prs k,
         exists k',
           activitiesMemo (fun _ => now) helpersDeclared issues prs k =
           Returned (feedSpec now issues prs, k'))
  /\ (forall now issues prs,
         (List.length (feedSpec now issues prs) <= 5)%nat).
Proof.
  split; [|split; [|split; [|split]]].
  - intros tz clock issues pr prs loading k. rewrite DashboardTab_Es5.
    cbn [st_issues st_prs].
    now rewrite activitiesMemo_unbound_pr by reflexivity.
  - intros tz clock issue issues loading k. rewrite DashboardTab_Es5.
    cbn [st_issues st_prs].
    now rewrite activitiesMemo_unbound_issue by reflexivity.
  - intros clock sc k. apply activitiesMemo_nil.
  - intros now issues prs k.
    destruct (activitiesMemo_declared now issues prs k) as [k' E].
    exists k'. now rewrite E, activities_feedSpec.
  - intros now issues prs. unfold feedSpec. apply firstn_le_length.
Qed.

(* ================================================================== *)
(** ** The six-month chart *)
(* ================================================================== *)

Lemma dayFromYear_step y :
  365 <= Js.dayFromYear (y + 1) - Js.dayFromYear y <= 366.
Proof. unfold Js.dayFromYear. Z.div_mod_to_equations. lia. Qed.

(** [yearFromDay] meets the definition of [YearFromTime]. *)
Lemma yearFromDay_spec d :
  Js.dayFromYear (Js.yearFromDay d) <= d
  < Js.dayFromYear (Js.yearFromDay d + 1).
Proof.
  unfold Js.yearFromDay.
  set (y := 1970 + 400 * d / 146097).
  destruct (Z.leb_spec (Js.dayFromYear (y + 1)) d) as [H1|H1].
  - split; [exact H1|].
    subst y. unfold Js.dayFromYear in *. Z.div_mod_to_equations. lia.
  - destruct (Z.leb_spec (Js.dayFromYear y) d) as [H2|H2].
    + split; assumption.
    + replace (y - 1 + 1) with y by lia. split; [|exact H2].
      subst y. unfold Js.dayFromYear in *. Z.div_mod_to_equations. lia.
Qed.

(** The first day of a month precedes the first day of the next month, also
    across the end of a year. *)
Lemma makeDay_month_step y m : Js.makeDay y m 1 < Js.makeDay y (m + 1) 1.
Proof.
  unfold Js.makeDay.
  assert (Hr : 0 <= m mod 12 < 12) by (apply Z.mod_pos_bound; lia).
  destruct (Z.eq_dec (m mod 12) 11) as [E|E].
  - assert (Hq : (m + 1) / 12 = m / 12 + 1 /\ (m + 1) mod 12 = 0)
      by (Z.div_mod_to_equations; lia).
    destruct Hq as [-> ->]. rewrite E.
    pose proof (dayFromYear_step (y + m / 12)) as Hs.
    replace (y + (m / 12 + 1)) with (y + m / 12 + 1) by lia.
    cbn [Js.daysBeforeMonth].
    destruct (Js.inLeapYear (y + m / 12)),
             (Js.inLeapYear (y + m / 12 + 1)); lia.
  - assert (Hq : (m + 1) / 12 = m / 12 /\ (m + 1) mod 12 = m mod 12 + 1)
      by (Z.div_mod_to_equations; lia).
    destruct Hq as [-> ->].
    assert (Hc : m mod 12 = 0 \/ m mod 12 = 1 \/ m mod 12 = 2 \/ m mod 12 = 3
                 \/ m mod 12 = 4 \/ m mod 12 = 5 \/ m mod 12 = 6
                 \/ m mod 12 = 7 \/ m mod 12 = 8 \/ m mod 12 = 9
                 \/ m mod 12 = 10) by lia.
    destruct (Js.inLeapYear (y + m / 12));
      repeat (destruct Hc as [-> | Hc]; [cbn; lia|]); rewrite Hc; cbn; lia.
Qed.

Lemma newDate_month_step tz y m :
  Js.newDate tz y m 1 < Js.newDate tz y (m + 1) 1.
Proof.
  unfold Js.newDate, Js.msPerDay.
  pose proof (makeDay_month_step
                (if (0 <=? y) && (y <=? 99) then 1900 + y else y) m).
  lia.
Qed.

Lemma nextMonth_is_next_monthDate tz now index :
  nextMonth tz now index = monthDate tz now (index + 1).
Proof. unfold nextMonth, monthDate. f_equal. lia. Qed.

Lemma monthDate_step tz now index :
  monthDate tz now index < monthDate tz now (index + 1).
Proof.
  unfold monthDate.
  replace (Js.getMonth tz now - (5 - (index + 1)))
    with (Js.getMonth tz now - (5 - index) + 1) by lia.
  apply newDate_month_step.
Qed.

Lemma monthDate_mono tz now i j :
  i <= j -> monthDate tz now i <= monthDate tz now j.
Proof.
  intros Hij. replace j with (i + Z.of_nat (Z.to_nat (j - i))) by lia.
  induction (Z.to_nat (j - i)) as [|k IH].
  - rewrite Z.add_0_r. lia.
  - pose proof (monthDate_step tz now (i + Z.of_nat k)).
    replace (i + Z.of_nat (S k)) with (i + Z.of_nat k + 1) by lia. lia.
Qed.

(** A value lies in exactly one of six adjoining intervals when it lies in
    their union, and in none otherwise. *)
Lemma six_buckets_partition (b0 b1 b2 b3 b4 b5 b6 : Z) (t : Js.num) (v : Z) :
  b0 < b1 -> b1 < b2 -> b2 < b3 -> b3 < b4 -> b4 < b5 -> b5 < b6 ->
  let hit lo hi := if Js.ge t (Some lo) && Js.lt t (Some hi) then v else 0 in
  hit b0 b1 + (hit b1 b2 + (hit b2 b3 + (hit b3 b4 + (hit b4 b5 + hit b5 b6))))
  = hit b0 b6.
Proof.
  intros H01 H12 H23 H34 H45 H56. cbv zeta.
  destruct t as [t|]; cbn [Js.ge Js.lt andb]; [|reflexivity].
  destruct (Z.leb_spec b0 t); cbn [andb].
  2: { repeat (match goal with
               | |- context [?b <=? t] =>
                   destruct (Z.leb_spec b t); [exfalso; lia|]
               end); reflexivity. }
  destruct (Z.ltb_spec t b6).
  2: { repeat (match goal with
               | |- context [t <? ?b] =>
                   destruct (Z.ltb_spec t b); [exfalso; lia|]
               end); rewrite ?andb_false_r; reflexivity. }
  destruct (Z.ltb_spec t b1); cbn [andb];
    repeat (match goal with
            | |- context [?b <=? t] =>
                destruct (Z.leb_spec b t); try (exfalso; lia)
            | |- context [t <? ?b] =>
                destruct (Z.ltb_spec t b); try (exfalso; lia)
            end; cbn [andb]); lia.
Qed.

Lemma commentsOver_buckets tz now issues :
  commentsOver (inMonth tz now 0) issues
  + (commentsOver (inMonth tz now 1) issues
     + (commentsOver (inMonth tz now 2) issues
        + (commentsOver (inMonth tz now 3) issues
           + (commentsOver (inMonth tz now 4) issues
              + commentsOver (inMonth tz now 5) issues))))
  = commentsOver (inSpan tz now) issues.
Proof.
  induction issues as [|x l IH]; [reflexivity|].
  cbn [commentsOver]. rewrite <- IH. clear IH.
  repeat match goal with
         | |- context [commentsOver ?f l] =>
             generalize (commentsOver f l); intro
         end.
  pose proof (six_buckets_partition
                (monthDate tz now 0) (monthDate tz now 1) (monthDate tz now 2)
                (monthDate tz now 3) (monthDate tz now 4) (monthDate tz now 5)
                (monthDate tz now 6) (effectiveTime x)
                (match comments_count x with Some n => n | None => 0 end)
                (monthDate_step tz now 0) (monthDate_step tz now 1)
                (monthDate_step tz now 2) (monthDate_step tz now 3)
                (monthDate_step tz now 4) (monthDate_step tz now 5)) as Hx.
  cbv beta zeta in Hx. unfold inSpan, inMonth.
  rewrite (nextMonth_is_next_monthDate tz now 0),
    (nextMonth_is_next_monthDate tz now 1),
    (nextMonth_is_next_monthDate tz now 2),
    (nextMonth_is_next_monthDate tz now 3),
    (nextMonth_is_next_monthDate tz now 4),
    (nextMonth_is_next_monthDate tz now 5).
  cbn [Z.add Pos.add Pos.succ].
  lia.
Qed.

(** A record lies in at most one bucket. *)
Lemma buckets_disjoint {A} `{Timestamped A} tz now (r : A) i j :
  (i <? j) && inMonth tz now i r && inMonth tz now j r = false.
Proof.
  destruct (Z.ltb_spec i j) as [Hij|]; [|reflexivity].
  pose proof (monthDate_mono tz now (i + 1) j ltac:(lia)) as Hm.
  unfold inMonth.
  rewrite (nextMonth_is_next_monthDate tz now i).
  generalize (nextMonth tz now j).
  revert Hm.
  generalize (monthDate tz now (i + 1)), (monthDate tz now j),
    (monthDate tz now i).
  intros hi lo' lo Hm hi'.
  destruct (effectiveTime r) as [t|]; cbn [Js.ge Js.lt andb]; [|reflexivity].
  destruct (Z.leb_spec lo t); cbn [andb]; [|reflexivity].
  destruct (Z.ltb_spec t hi); cbn [andb]; [|reflexivity].
  destruct (Z.leb_spec lo' t); [exfalso; lia | reflexivity].
Qed.

(** C6. For all collections, every evaluation time and time zone, the
    [applications] of the six chart points add up to the sum of
    [comments_count] (0 when absent) over the issues whose effective
    timestamp lies between the start of the first bucket and the end of the
    last.  Each bucket ends where the next begins, each bucket is non-empty,
    and no record lies in two different buckets. *)
Theorem chart_applications_sum_to_span tz now issues prs :
  sumZ (map applications (chartData tz now issues prs)) =
  commentsOver (inSpan tz now) issues
  /\ (forall index, nextMonth tz now index = monthDate tz now (index + 1))
  /\ (forall index, monthDate tz now index < nextMonth tz now index)
  /\ (forall (r : Issue) i j,
         (i <? j) && inMonth tz now i r && inMonth tz now j r = false).
Proof.
  split; [|split; [|split]].
  - unfold chartData, mapIndexed, months.
    cbn [mapFrom map applications sumZ fold_right Z.add Pos.add Pos.succ].
    rewrite !sumComments_filter, Z.add_0_r.
    apply commentsOver_buckets.
  - apply nextMonth_is_next_monthDate.
  - intros index. rewrite nextMonth_is_next_monthDate. apply monthDate_step.
  - intros r i j. apply buckets_disjoint.
Qed.

Lemma dayFromYear_mono y1 y2 :
  y1 <= y2 -> Js.dayFromYear y1 <= Js.dayFromYear y2.
Proof. intros H. unfold Js.dayFromYear. Z.div_mod_to_equations. lia. Qed.

Lemma yearFromDay_unique d y :
  Js.dayFromYear y <= d < Js.dayFromYear (y + 1) -> Js.yearFromDay d = y.
Proof.
  intros [Hlo Hhi]. pose proof (yearFromDay_spec d) as [Slo Shi].
  destruct (Z.lt_trichotomy (Js.yearFromDay d) y) as [Hlt|[Heq|Hgt]];
    [|exact Heq|].
  - pose proof (dayFromYear_mono (Js.yearFromDay d + 1) y ltac:(lia)). lia.
  - pose proof (dayFromYear_mono (y + 1) (Js.yearFromDay d) ltac:(lia)). lia.
Qed.

Lemma month_cases m :
  0 <= m < 12 ->
  m = 0 \/ m = 1 \/ m = 2 \/ m = 3 \/ m = 4 \/ m = 5 \/ m = 6
  \/ m = 7 \/ m = 8 \/ m = 9 \/ m = 10 \/ m = 11.
Proof. lia. Qed.

Lemma monthFromDay_makeDay y m :
  Js.monthFromDay (Js.makeDay y m 1) = m mod 12.
Proof.
  unfold Js.makeDay.
  assert (Hr : 0 <= m mod 12 < 12) by (apply Z.mod_pos_bound; lia).
  set (ym := y + m / 12). set (mn := m mod 12) in *.
  assert (Hb : 0 <= Js.daysBeforeMonth (Js.inLeapYear ym) mn <= 335).
  { destruct (Js.inLeapYear ym);
      destruct (month_cases mn Hr)
        as [->|[->|[->|[->|[->|[->|[->|[->|[->|[->|[->| ->]]]]]]]]]]];
      cbn; lia. }
  pose proof (dayFromYear_step ym) as Hs.
  unfold Js.monthFromDay.
  rewrite (yearFromDay_unique _ ym) by lia.
  replace (Js.dayFromYear ym + Js.daysBeforeMonth (Js.inLeapYear ym) mn
           + 1 - 1 - Js.dayFromYear ym)
    with (Js.daysBeforeMonth (Js.inLeapYear ym) mn) by lia.
  destruct (Js.inLeapYear ym);
    destruct (month_cases mn Hr)
      as [->|[->|[->|[->|[->|[->|[->|[->|[->|[->|[->| ->]]]]]]]]]]];
    reflexivity.
Qed.

(** The month read back from the first day of a month is that month. *)
Lemma getMonth_newDate tz y m :
  Js.getMonth tz (Js.newDate tz y m 1) = m mod 12.
Proof.
  unfold Js.getMonth, Js.newDate, Js.msPerDay.
  set (yr := if (0 <=? y) && (y <=? 99) then 1900 + y else y).
  replace (Js.makeDay yr m 1 * 86400000 - tz + tz)
    with (Js.makeDay yr m 1 * 86400000) by lia.
  rewrite Z.div_mul by lia. apply monthFromDay_makeDay.
Qed.

Lemma monthFromDay_range d : 0 <= Js.monthFromDay d < 12.
Proof.
  unfold Js.monthFromDay.
  repeat (match goal with
          | |- context [if ?c then _ else _] => destruct c; [|lia]
          end).
  lia.
Qed.

(** The fixed labels name the months of the buckets only in October. *)
Lemma bucketMonths_match tz now :
  bucketMonths tz now = months <-> Js.getMonth tz now = 9.
Proof.
  unfold bucketMonths, monthDate. cbn [map]. rewrite !getMonth_newDate.
  pose proof (monthFromDay_range ((now + tz) / Js.msPerDay)) as Hr.
  fold (Js.getMonth tz now) in Hr.
  destruct (month_cases _ Hr)
    as [E|[E|[E|[E|[E|[E|[E|[E|[E|[E|[E|E]]]]]]]]]]];
    rewrite E; split; intros H; try reflexivity; try discriminate H; try lia.
Qed.

Lemma dayFromYear_leap_step y :
  Js.dayFromYear (y + 1) - Js.dayFromYear y =
  if Js.inLeapYear y then 366 else 365.
Proof.
  unfold Js.dayFromYear, Js.inLeapYear.
  destruct (Z.eqb_spec (y mod 4) 0); cbn [andb];
    destruct (Z.eqb_spec (y mod 100) 0); cbn [negb orb];
    destruct (Z.eqb_spec (y mod 400) 0); cbn [andb orb];
    Z.div_mod_to_equations; lia.
Qed.

(** [monthFromDay] meets the definition of [MonthFromTime]: the day lies in
    the month it is assigned to. *)
Lemma monthFromDay_spec d :
  Js.makeDay (Js.yearFromDay d) (Js.monthFromDay d) 1 <= d
  < Js.makeDay (Js.yearFromDay d) (Js.monthFromDay d + 1) 1.
Proof.
  pose proof (yearFromDay_spec d) as [Hlo Hhi].
  pose proof (dayFromYear_leap_step (Js.yearFromDay d)) as Hs.
  unfold Js.monthFromDay, Js.makeDay.
  set (y := Js.yearFromDay d) in *.
  destruct (Js.inLeapYear y) eqn:El;
    repeat (match goal with
            | |- context [if ?a <=? ?b then _ else _] =>
                destruct (Z.leb_spec a b);
                [| cbn -[Js.dayFromYear Js.inLeapYear] in *;
                   rewrite ?Z.add_0_r, ?El; cbn; lia]
            end);
    cbn -[Js.dayFromYear Js.inLeapYear] in *;
    rewrite ?Z.add_0_r, ?El;
    destruct (Js.inLeapYear (y + 1)); cbn; lia.
Qed.

(** Outside the years 0..99 the last bucket is the calendar month that
    contains [now]. *)
Lemma now_in_last_bucket tz now :
  Js.getFullYear tz now < 0 \/ 99 < Js.getFullYear tz now ->
  monthDate tz now 5 <= now < nextMonth tz now 5.
Proof.
  intros Hy. unfold monthDate, nextMonth, Js.newDate.
  replace (Js.getMonth tz now - (5 - 5)) with (Js.getMonth tz now) by lia.
  replace (Js.getMonth tz now - (4 - 5)) with (Js.getMonth tz now + 1) by lia.
  replace ((0 <=? Js.getFullYear tz now) && (Js.getFullYear tz now <=? 99))
    with false by (symmetry; apply andb_false_iff; rewrite !Z.leb_gt; lia).
  pose proof (monthFromDay_spec ((now + tz) / Js.msPerDay)) as Hm.
  fold (Js.getFullYear tz now) (Js.getMonth tz now) in Hm.
  unfold Js.msPerDay in *. Z.div_mod_to_equations. lia.
Qed.

(** C7 at a failing input. The chart always has six points and their labels
    are always May to October, whatever the evaluation time; the labels name
    the months of the buckets exactly when [now] falls in October.
    Evaluated on 15 January 2025 (UTC) the six buckets start in August 2024
    to January 2025, so the labels do not name the months of their buckets
    (only "Oct" coincides). *)
Theorem chart_labels_ignore_evaluation_time :
  (forall tz now issues prs,
      List.length (chartData tz now issues prs) = 6%nat
      /\ map month (chartData tz now issues prs) =
         ["May"; "Jun"; "Jul"; "Aug"; "Sep"; "Oct"])
  /\ (forall tz now issues prs,
         map month (chartData tz now issues prs) = bucketMonths tz now
         <-> Js.getMonth tz now = 9)
  /\ (Js.getFullYear 0 Sample.now, Js.getMonth 0 Sample.now) = (2025, 0)
  /\ bucketMonths 0 Sample.now = ["Aug"; "Sep"; "Oct"; "Nov"; "Dec"; "Jan"]
  /\ map month (chartData 0 Sample.now [] []) <> bucketMonths 0 Sample.now.
Proof.
  split; [|split; [|split; [|split]]].
  - intros. split; reflexivity.
  - intros tz now issues prs. rewrite <- bucketMonths_match.
    change (map month (chartData tz now issues prs)) with months.
    split; intros E; now rewrite E.
  - vm_compute. reflexivity.
  - vm_compute. reflexivity.
  - vm_compute. discriminate.
Qed.

(* ================================================================== *)
(** ** Relative-time labels *)
(* ================================================================== *)

Lemma string_app_assoc (a b c : string) :
  ((a ++ b) ++ c = a ++ (b ++ c))%string.
Proof. induction a as [|x a IH]; simpl; [reflexivity | now rewrite IH]. Qed.

(** *** Reading back a printed number *)

Lemma readDigits_digit radix c rest acc v :
  Js.digitOf radix c = Some v ->
  Js.readDigits radix (String c rest) acc =
  Js.readDigits radix rest (Some (radix * Js.orZero acc + v)).
Proof. intros Hc. cbn [Js.readDigits]. now rewrite Hc. Qed.

Lemma readDigits_stop radix c rest acc :
  Js.digitOf radix c = None -> Js.readDigits radix (String c rest) acc = acc.
Proof. intros Hc. cbn [Js.readDigits]. now rewrite Hc. Qed.

(** Reading the digits of [d] from a positive accumulator follows
    [Pos.of_uint_acc]. *)
Lemma readDigits_uint_acc d rest acc :
  Js.readDigits 10 (NilEmpty.string_of_uint d ++ rest) (Some (Z.pos acc)) =
  Js.readDigits 10 rest (Some (Z.pos (Pos.of_uint_acc d acc))).
Proof.
  revert acc.
  induction d; intros acc;
    cbn [NilEmpty.string_of_uint String.append Pos.of_uint_acc];
    [reflexivity|..];
    (erewrite readDigits_digit by (vm_compute; reflexivity));
    rewrite <- IHd; do 2 f_equal; cbn [Js.orZero]; lia.
Qed.

(** Reading the digits of [d] from the start follows [Pos.of_uint]. *)
Lemma readDigits_uint d rest acc :
  d <> Decimal.Nil -> Js.orZero acc = 0 ->
  Js.readDigits 10 (NilEmpty.string_of_uint d ++ rest) acc =
  Js.readDigits 10 rest (Some (Z.of_N (Pos.of_uint d))).
Proof.
  revert acc. induction d; intros acc Hd Hacc; [contradiction|..];
    cbn [NilEmpty.string_of_uint String.append Pos.of_uint];
    (erewrite readDigits_digit by (vm_compute; reflexivity)); rewrite Hacc.
  - destruct d; [reflexivity|..]; apply IHd; (discriminate || reflexivity).
  - apply (readDigits_uint_acc d rest 1).
  - apply (readDigits_uint_acc d rest 2).
  - apply (readDigits_uint_acc d rest 3).
  - apply (readDigits_uint_acc d rest 4).
  - apply (readDigits_uint_acc d rest 5).
  - apply (readDigits_uint_acc d rest 6).
  - apply (readDigits_uint_acc d rest 7).
  - apply (readDigits_uint_acc d rest 8).
  - apply (readDigits_uint_acc d rest 9).
Qed.

(** Digits followed by a space never start with the hexadecimal prefix. *)
Lemma hexPrefix_uint d rest :
  Js.hexPrefix (NilEmpty.string_of_uint d ++ String " " rest) = false.
Proof.
  destruct d as [|d|d|d|d|d|d|d|d|d|d]; try reflexivity.
  destruct d; reflexivity.
Qed.

Lemma parseInt_uint d rest :
  d <> Decimal.Nil ->
  Js.parseInt (NilEmpty.string_of_uint d ++ String " " rest) =
  Some (Z.of_N (Pos.of_uint d)).
Proof.
  intros Hd.
  transitivity
    (Js.readDigits 10 (NilEmpty.string_of_uint d ++ String " " rest) Js.NaN).
  - pose proof (hexPrefix_uint d rest) as Hh.
    destruct d; [contradiction|..];
      cbn [NilEmpty.string_of_uint String.append] in *;
      unfold Js.parseInt; cbn [Js.trimStart];
      (match goal with
       | |- context [Js.isWhiteSpace ?c] =>
           change (Js.isWhiteSpace c) with false
       end);
      cbv iota; unfold Js.readUnsigned; rewrite Hh; reflexivity.
  - rewrite readDigits_uint by (assumption || reflexivity).
    apply readDigits_stop. vm_compute. reflexivity.
Qed.

Lemma toString_pos p :
  Js.toString (Some (Z.pos p)) = NilEmpty.string_of_uint (Pos.to_uint p).
Proof.
  cbn [Js.toString Z.to_int NilZero.string_of_int].
  unfold NilZero.string_of_uint.
  pose proof (DecimalPos.Unsigned.to_uint_nonnil p).
  destruct (Pos.to_uint p); [contradiction|..]; reflexivity.
Qed.

(** [parseInt] recovers a positive count from the label it starts. *)
Lemma parseInt_label n rest :
  0 < n -> Js.parseInt (Js.toString (Some n) ++ String " " rest) = Some n.
Proof.
  intros Hn. destruct n as [|p|p]; try lia.
  rewrite toString_pos, parseInt_uint
    by apply DecimalPos.Unsigned.to_uint_nonnil.
  now rewrite DecimalPos.Unsigned.of_to.
Qed.

(** *** Searching a label for a unit *)

(** A needle that starts with a letter is not found among leading digits. *)
Lemma includes_uint d rest c needle :
  Js.digitOf 10 c = None ->
  Js.includes (NilEmpty.string_of_uint d ++ rest) (String c needle) =
  Js.includes rest (String c needle).
Proof.
  intros Hc.
  induction d; cbn [NilEmpty.string_of_uint String.append]; [reflexivity|..];
    cbn [Js.includes String.prefix];
    (match goal with
     | |- context [ascii_dec c ?k] =>
         destruct (ascii_dec c k) as [->|_];
         [vm_compute in Hc; discriminate | exact IHd]
     end).
Qed.

Lemma label_shape n unit :
  (plural (Some n) unit ++ " ago")%string =
  (Js.toString (Some n)
   ++ String " " (unit ++ (if (n =? 1)%Z then "" else "s") ++ " ago"))%string.
Proof.
  unfold plural, Js.neqLit. rewrite !string_app_assoc.
  cbn [String.append].
  now destruct (n =? 1).
Qed.

(** *** Format, parse, and buckets *)

(** [parseTimeAgo] inverts the label of a bucket with a positive count. *)
Lemma parseTimeAgo_bucketLabel now b :
  match b with
  | JustNow => True
  | Minutes n | Hours n | Days n | Months n => 0 < n
  end ->
  parseTimeAgo now (bucketLabel b) = now - bucketOffset b.
Proof.
  destruct b as [|n|n|n|n]; intros Hn; cbn [bucketLabel bucketOffset].
  1: { unfold parseTimeAgo. eval_includes. lia. }
  all: rewrite label_shape; unfold parseTimeAgo;
    rewrite (parseInt_label n _ Hn);
    destruct n as [|p|p]; try lia;
    rewrite toString_pos, !includes_uint by reflexivity;
    destruct (Z.pos p =? 1); eval_includes; reflexivity.
Qed.

(** [formatTimeAgo] prints the bucket of its argument. *)
Lemma formatTimeAgo_bucket now t :
  formatTimeAgo now (Some t) = bucketLabel (bucketOf now t).
Proof.
  unfold formatTimeAgo, bucketOf.
  cbn [Js.sub Js.floorDiv option_map Js.lt].
  destruct (_ <? 1); [reflexivity|].
  destruct (_ <? 60); [reflexivity|].
  destruct (_ <? 24); [reflexivity|].
  destruct (_ <? 30); reflexivity.
Qed.

Lemma bucketOf_counts now t :
  match bucketOf now t with
  | JustNow => True
  | Minutes n | Hours n | Days n | Months n => 0 < n
  end.
Proof.
  unfold bucketOf.
  destruct (Z.ltb_spec ((now - t) / 60000) 1); [exact I|].
  destruct (Z.ltb_spec ((now - t) / 60000) 60); [lia|].
  destruct (Z.ltb_spec ((now - t) / 3600000) 24);
    [Z.div_mod_to_equations; lia|].
  destruct (Z.ltb_spec ((now - t) / 86400000) 30);
    Z.div_mod_to_equations; lia.
Qed.

(** The instant a bucket's label stands for lies in that bucket. *)
Lemma bucketOf_offset now t :
  bucketOf now (now - bucketOffset (bucketOf now t)) = bucketOf now t.
Proof.
  unfold bucketOf at 2 3.
  destruct (Z.ltb_spec ((now - t) / 60000) 1) as [H1|H1].
  { cbn [bucketOffset]. unfold bucketOf.
    replace (now - (now - 0)) with 0 by lia. reflexivity. }
  destruct (Z.ltb_spec ((now - t) / 60000) 60) as [H2|H2].
  { cbn [bucketOffset]. unfold bucketOf.
    set (m := (now - t) / 60000) in *.
    replace (now - (now - m * 60000)) with (m * 60000) by lia.
    rewrite Z.div_mul by lia.
    destruct (Z.ltb_spec m 1); [lia|].
    destruct (Z.ltb_spec m 60); [reflexivity | lia]. }
  destruct (Z.ltb_spec ((now - t) / 3600000) 24) as [H3|H3].
  { cbn [bucketOffset]. unfold bucketOf.
    set (h := (now - t) / 3600000) in *.
    assert (1 <= h) by (subst h; div_exact).
    replace (now - (now - h * 3600000)) with (h * 3600000) by lia.
    rewrite Z.div_mul by lia.
    replace (h * 3600000 / 60000) with (h * 60) by div_exact.
    destruct (Z.ltb_spec (h * 60) 1); [lia|].
    destruct (Z.ltb_spec (h * 60) 60); [lia|].
    destruct (Z.ltb_spec h 24); [reflexivity | lia]. }
  destruct (Z.ltb_spec ((now - t) / 86400000) 30) as [H4|H4].
  { cbn [bucketOffset]. unfold bucketOf.
    set (d := (now - t) / 86400000) in *.
    assert (1 <= d) by (subst d; div_exact).
    replace (now - (now - d * 86400000)) with (d * 86400000) by lia.
    rewrite Z.div_mul by lia.
    replace (d * 86400000 / 60000) with (d * 1440) by div_exact.
    replace (d * 86400000 / 3600000) with (d * 24) by div_exact.
    destruct (Z.ltb_spec (d * 1440) 1); [lia|].
    destruct (Z.ltb_spec (d * 1440) 60); [lia|].
    destruct (Z.ltb_spec (d * 24) 24); [lia|].
    destruct (Z.ltb_spec d 30); [reflexivity | lia]. }
  cbn [bucketOffset]. unfold bucketOf.
  set (k := (now - t) / 86400000 / 30) in *.
  assert (1 <= k) by (subst k; div_exact).
  replace (now - (now - k * 30 * 86400000)) with (k * 30 * 86400000) by lia.
  replace (k * 30 * 86400000 / 60000) with (k * 43200) by div_exact.
  replace (k * 30 * 86400000 / 3600000) with (k * 720) by div_exact.
  replace (k * 30 * 86400000 / 86400000) with (k * 30) by div_exact.
  rewrite Z.div_mul by lia.
  destruct (Z.ltb_spec (k * 43200) 1); [lia|].
  destruct (Z.ltb_spec (k * 43200) 60); [lia|].
  destruct (Z.ltb_spec (k * 720) 24); [lia|].
  destruct (Z.ltb_spec (k * 30) 30); [lia | reflexivity].
Qed.

(** The offset of a bucket never exceeds the elapsed time. *)
Lemma bucketOffset_bounds now t :
  t <= now -> 0 <= bucketOffset (bucketOf now t) <= now - t.
Proof.
  intros Ht. unfold bucketOf.
  destruct (Z.ltb_spec ((now - t) / 60000) 1); [cbn; lia|].
  destruct (Z.ltb_spec ((now - t) / 60000) 60);
    [cbn [bucketOffset]; div_exact|].
  destruct (Z.ltb_spec ((now - t) / 3600000) 24);
    [cbn [bucketOffset]; div_exact|].
  destruct (Z.ltb_spec ((now - t) / 86400000) 30);
    cbn [bucketOffset]; div_exact.
Qed.

(** C9. For every timestamp [t] not after [now], parsing the label that
    [formatTimeAgo] gives [t] yields the instant [now] minus the offset of
    [t]'s bucket; that instant lies between [t] and [now], falls in the same
    bucket as [t] (same unit, same count) and formats to the same label. *)
Theorem relative_time_round_trip now t :
  t <= now ->
  let t' := parseTimeAgo now (formatTimeAgo now (Some t)) in
  bucketOf now t' = bucketOf now t
  /\ formatTimeAgo now (Some t') = formatTimeAgo now (Some t)
  /\ t' = now - bucketOffset (bucketOf now t)
  /\ t <= t' <= now.
Proof.
  intros Ht t'.
  assert (Ht' : t' = now - bucketOffset (bucketOf now t)).
  { subst t'. rewrite formatTimeAgo_bucket.
    apply parseTimeAgo_bucketLabel, bucketOf_counts. }
  assert (Hb : bucketOf now t' = bucketOf now t)
    by (rewrite Ht'; apply bucketOf_offset).
  split; [exact Hb|]. split; [|split; [exact Ht'|]].
  - now rewrite !formatTimeAgo_bucket, Hb.
  - pose proof (bucketOffset_bounds now t Ht). lia.
Qed.

Lemma relative_time_round_trip_witness :
  Sample.now - 5400000 <= Sample.now
  /\ bucketOf Sample.now
       (parseTimeAgo Sample.now
          (formatTimeAgo Sample.now (Some (Sample.now - 5400000)))) =
     bucketOf Sample.now (Sample.now - 5400000).
Proof.
  assert (Hle : Sample.now - 5400000 <= Sample.now)
    by (vm_compute; discriminate).
  split; [exact Hle|].
  exact (proj1 (relative_time_round_trip Sample.now (Sample.now - 5400000)
                  Hle)).
Defined.

(** The round trip is lossy: ninety minutes ago reads "1 hour ago", which
    parses to sixty minutes ago. *)
Example round_trip_is_not_identity :
  formatTimeAgo Sample.now (Some (Sample.now - 5400000)) = "1 hour ago"
  /\ parseTimeAgo Sample.now "1 hour ago" = Sample.now - 3600000
  /\ parseTimeAgo Sample.now
       (formatTimeAgo Sample.now (Some (Sample.now - 5400000)))
     <> Sample.now - 5400000.
Proof. repeat split. vm_compute. discriminate. Qed.

(* ================================================================== *)
(** ** Further properties: the stable sort *)
(* ================================================================== *)

(** Two comparators that agree on the elements of a list sort it alike. *)
Lemma insert_ext_in {A} (f g : A -> A -> Js.num) x l :
  (forall y, In y l -> f x y = g x y) -> Js.insert f x l = Js.insert g x l.
Proof.
  induction l as [|y l IH]; intros Hfg; [reflexivity|]. simpl.
  rewrite (Hfg y (or_introl eq_refl)), IH; [reflexivity|].
  intros z Hz. apply Hfg. now right.
Qed.

Lemma sort_ext_in {A} (f g : A -> A -> Js.num) l :
  (forall x y, In x l -> In y l -> f x y = g x y) ->
  Js.sort f l = Js.sort g l.
Proof.
  induction l as [|x l IH]; intros Hfg; [reflexivity|]. simpl.
  rewrite IH by (intros; apply Hfg; now right).
  apply insert_ext_in. intros y Hy. apply Hfg; [now left|].
  right. now apply (sort_In g) in Hy.
Qed.

Section KeySort.
Context {A : Type}.
Variable comparefn : A -> A -> Js.num.
Variable key : A -> Z.
Hypothesis comparefn_key : forall a b, comparefn a b = Some (key b - key a).

(** Inserting [x] steps only over elements with a larger key. *)
Lemma insert_filter_key (p : A -> bool) x l :
  (forall y, p y = true -> key y <= key x) ->
  filter p (Js.insert comparefn x l) = filter p (x :: l).
Proof.
  intros Hp. induction l as [|y l IH]; [reflexivity|].
  cbn [Js.insert]. rewrite comparefn_key. unfold Js.positive.
  destruct (Z.ltb_spec 0 (key y - key x)) as [Hlt|Hge]; [|reflexivity].
  cbn [filter] in *. rewrite IH.
  destruct (p y) eqn:Ey; [|reflexivity].
  specialize (Hp y Ey). lia.
Qed.

(** Elements with equal keys keep their relative order. *)
Lemma sort_stable k l :
  filter (fun a => key a =? k) (Js.sort comparefn l) =
  filter (fun a => key a =? k) l.
Proof.
  induction l as [|x l IH]; [reflexivity|]. cbn [Js.sort fold_right].
  fold (Js.sort comparefn l).
  destruct (Z.eqb_spec (key x) k) as [E|E].
  - rewrite insert_filter_key.
    + cbn [filter]. now rewrite IH.
    + intros y Hy. apply Z.eqb_eq in Hy. lia.
  - assert (H : forall m, filter (fun a => key a =? k) (Js.insert comparefn x m)
                         = filter (fun a => key a =? k) m).
    { induction m as [|y m IHm]; cbn [Js.insert filter].
      - destruct (Z.eqb_spec (key x) k); [contradiction | reflexivity].
      - destruct (Js.positive (comparefn x y)); cbn [filter].
        + now rewrite IHm.
        + destruct (Z.eqb_spec (key x) k); [contradiction | reflexivity]. }
    rewrite H, IH. cbn [filter].
    destruct (Z.eqb_spec (key x) k); [contradiction | reflexivity].
Qed.

End KeySort.

(* ================================================================== *)
(** ** Further properties: the unified collections *)
(* ================================================================== *)

(** On dated records the comparator of [loadData] orders by [timeKey]. *)
Lemma byRecency_timeKey {A} `{Timestamped A} (a b : A) :
  effectiveTime a <> Js.NaN -> effectiveTime b <> Js.NaN ->
  byRecency a b = Some (timeKey b - timeKey a).
Proof.
  unfold byRecency, timeKey, Js.NaN.
  destruct (effectiveTime a), (effectiveTime b); intros Ha Hb;
    try contradiction; reflexivity.
Qed.

Lemma sort_byRecency_dated {A} `{Timestamped A} (l : list A) :
  (forall r, In r l -> effectiveTime r <> Js.NaN) ->
  Js.sort byRecency l =
  Js.sort (fun a b => Some (timeKey b - timeKey a)) l.
Proof.
  intros Hl. apply sort_ext_in. intros x y Hx Hy.
  apply byRecency_timeKey; auto.
Qed.

Lemma sorted_notOlder {A} `{Timestamped A} (l : list A) :
  (forall r, In r l -> effectiveTime r <> Js.NaN) ->
  Sorted (descending timeKey) l -> Sorted notOlder l.
Proof.
  intros Hl Hs. induction Hs as [|x l Hs IH Hhd]; [constructor|].
  constructor.
  - apply IH. intros r Hr. apply Hl. now right.
  - destruct Hhd as [|y l Hxy]; constructor.
    pose proof (Hl x (or_introl eq_refl)) as Hx.
    pose proof (Hl y (or_intror (or_introl eq_refl))) as Hy.
    unfold descending, timeKey in Hxy. unfold notOlder, Js.NaN in *.
    destruct (effectiveTime x) as [tx|], (effectiveTime y) as [ty|];
      try contradiction.
    exists tx, ty. repeat split. exact Hxy.
Qed.

Lemma datedAt_timeKey {A} `{Timestamped A} (k : Z) (l : list A) :
  (forall r, In r l -> effectiveTime r <> Js.NaN) ->
  filter (datedAt k) l = filter (fun r => timeKey r =? k) l.
Proof.
  intros Hl. apply filter_ext_in. intros r Hr. specialize (Hl r Hr).
  unfold datedAt, timeKey, Js.NaN in *.
  destruct (effectiveTime r); [reflexivity | contradiction].
Qed.

Lemma tagIssue_effectiveTime p r :
  effectiveTime (tagIssue p r) = effectiveTime r.
Proof. reflexivity. Qed.

Lemma tagPR_effectiveTime p r : effectiveTime (tagPR p r) = effectiveTime r.
Proof. reflexivity. Qed.

Lemma In_issuesDelivered api p r :
  In r (issuesDelivered api p) <->
  exists response raw,
    getProjectIssues api (id p) = Returned response
    /\ In raw (orEmpty (issues response)) /\ r = tagIssue p raw.
Proof.
  unfold issuesDelivered. destruct (getProjectIssues api (id p)) as [resp|e].
  - rewrite in_map_iff. split.
    + intros (raw & <- & Hraw). now exists resp, raw.
    + intros (resp' & raw & [= <-] & Hraw & ->). now exists raw.
  - split; [intros [] | intros (resp & raw & [=] & _)].
Qed.

Lemma In_prsDelivered api p r :
  In r (prsDelivered api p) <->
  exists response raw,
    getProjectPRs api (id p) = Returned response
    /\ In raw (orEmpty (prs response)) /\ r = tagPR p raw.
Proof.
  unfold prsDelivered. destruct (getProjectPRs api (id p)) as [resp|e].
  - rewrite in_map_iff. split.
    + intros (raw & <- & Hraw). now exists resp, raw.
    + intros (resp' & raw & [= <-] & Hraw & ->). now exists raw.
  - split; [intros [] | intros (resp & raw & [=] & _)].
Qed.

Lemma datedResponses_delivered api ps :
  datedResponses api ps ->
  (forall r, In r (flat_map (issuesDelivered api) ps) ->
             effectiveTime r <> Js.NaN)
  /\ (forall r, In r (flat_map (prsDelivered api) ps) ->
                effectiveTime r <> Js.NaN).
Proof.
  intros [Hi Hp]. split; intros r Hr; apply in_flat_map in Hr;
    destruct Hr as (p & Hps & Hr).
  - apply In_issuesDelivered in Hr.
    destruct Hr as (resp & raw & Hg & Hraw & ->).
    rewrite tagIssue_effectiveTime. eapply Hi; eauto.
  - apply In_prsDelivered in Hr.
    destruct Hr as (resp & raw & Hg & Hraw & ->).
    rewrite tagPR_effectiveTime. eapply Hp; eauto.
Qed.

(** X1. A record is in the unified issues (pull requests) exactly when it
    is a record of a successful response for a selected project, tagged with
    that project; so every unified record carries the [github_full_name] of
    a selected project as its [projectName]. *)
Theorem unified_records_carry_their_project api ps st :
  (forall r, In r (st_issues (loadData api ps st)) <->
             exists p response raw,
               In p ps /\ getProjectIssues api (id p) = Returned response
               /\ In raw (orEmpty (issues response)) /\ r = tagIssue p raw)
  /\ (forall r, In r (st_prs (loadData api ps st)) <->
                exists p response raw,
                  In p ps /\ getProjectPRs api (id p) = Returned response
                  /\ In raw (orEmpty (prs response)) /\ r = tagPR p raw)
  /\ (forall r, In r (st_issues (loadData api ps st)) ->
                exists p, In p ps
                          /\ issue_projectName r = Some (github_full_name p))
  /\ (forall r, In r (st_prs (loadData api ps st)) ->
                exists p, In p ps
                          /\ pr_projectName r = Some (github_full_name p)).
Proof.
  assert (Hi : forall r, In r (st_issues (loadData api ps st)) <->
             exists p response raw,
               In p ps /\ getProjectIssues api (id p) = Returned response
               /\ In raw (orEmpty (issues response)) /\ r = tagIssue p raw).
  { intros r. rewrite loadData_issues, <- sort_In, in_flat_map. split.
    - intros (p & Hp & Hr). apply In_issuesDelivered in Hr.
      destruct Hr as (resp & raw & H1 & H2 & H3). now exists p, resp, raw.
    - intros (p & resp & raw & Hp & H1 & H2 & H3).
      exists p. split; [exact Hp|].
      apply In_issuesDelivered. now exists resp, raw. }
  assert (Hp : forall r, In r (st_prs (loadData api ps st)) <->
                exists p response raw,
                  In p ps /\ getProjectPRs api (id p) = Returned response
                  /\ In raw (orEmpty (prs response)) /\ r = tagPR p raw).
  { intros r. rewrite loadData_prs, <- sort_In, in_flat_map. split.
    - intros (p & Hp & Hr). apply In_prsDelivered in Hr.
      destruct Hr as (resp & raw & H1 & H2 & H3). now exists p, resp, raw.
    - intros (p & resp & raw & Hp & H1 & H2 & H3).
      exists p. split; [exact Hp|].
      apply In_prsDelivered. now exists resp, raw. }
  split; [exact Hi|]. split; [exact Hp|]. split.
  - intros r Hr. apply Hi in Hr.
    destruct Hr as (p & _ & raw & Hps & _ & _ & ->). now exists p.
  - intros r Hr. apply Hp in Hr.
    destruct Hr as (p & _ & raw & Hps & _ & _ & ->). now exists p.
Qed.

(** X2. The unified collections hold the tagged records of all successful
    responses, each exactly as often as it was delivered: they are
    permutations of the concatenated deliveries, and their sizes are the
    sums of the sizes of the deliveries. *)
Theorem unified_collections_are_permutations api ps st :
  Permutation (flat_map (issuesDelivered api) ps)
    (st_issues (loadData api ps st))
  /\ Permutation (flat_map (prsDelivered api) ps)
       (st_prs (loadData api ps st))
  /\ List.length (st_issues (loadData api ps st)) =
     list_sum (map (fun p => List.length (issuesDelivered api p)) ps)
  /\ List.length (st_prs (loadData api ps st)) =
     list_sum (map (fun p => List.length (prsDelivered api p)) ps).
Proof.
  assert (Hlen : forall {A B} (g : A -> list B) l,
             List.length (flat_map g l) =
             list_sum (map (fun x => List.length (g x)) l)).
  { intros A B g l. induction l as [|x l IH]; [reflexivity|]. simpl.
    now rewrite length_app, IH. }
  rewrite loadData_issues, loadData_prs.
  split; [apply sort_perm|]. split; [apply sort_perm|]. split.
  - rewrite <- Hlen. symmetry. apply Permutation_length, sort_perm.
  - rewrite <- Hlen. symmetry. apply Permutation_length, sort_perm.
Qed.

(** X3. When every record of every successful response has a valid
    effective timestamp, both unified collections are in non-increasing
    order of effective timestamp. *)
Theorem unified_collections_sorted api ps st :
  datedResponses api ps ->
  Sorted notOlder (st_issues (loadData api ps st))
  /\ Sorted notOlder (st_prs (loadData api ps st)).
Proof.
  intros Hd. destruct (datedResponses_delivered api ps Hd) as [Hi Hp].
  rewrite loadData_issues, loadData_prs. split.
  - apply sorted_notOlder.
    + intros r Hr. apply Hi. now apply (sort_In byRecency).
    + rewrite sort_byRecency_dated by exact Hi.
      apply sort_sorted. reflexivity.
  - apply sorted_notOlder.
    + intros r Hr. apply Hp. now apply (sort_In byRecency).
    + rewrite sort_byRecency_dated by exact Hp.
      apply sort_sorted. reflexivity.
Qed.

Lemma unified_collections_sorted_witness :
  datedResponses Sample2.twoProjects Sample2.projects
  /\ Sorted notOlder
       (st_issues (loadData Sample2.twoProjects Sample2.projects
                     Sample.emptyDash)).
Proof.
  assert (Hd : datedResponses Sample2.twoProjects Sample2.projects).
  { split; intros p response r Hp Hg Hr;
      destruct Hp as [<-|[<-|[]]]; cbn in Hg; injection Hg as <-;
      cbn in Hr; intuition subst; discriminate. }
  split; [exact Hd|].
  exact (proj1 (unified_collections_sorted Sample2.twoProjects
                  Sample2.projects Sample.emptyDash Hd)).
Defined.

(** X4. When every record of every successful response has a valid
    effective timestamp, the records that share an effective timestamp
    appear in the unified collection in the order they were fetched
    (project by project, and within a project as the response lists them). *)
Theorem unified_collections_keep_ties_in_fetch_order api ps st :
  datedResponses api ps ->
  forall k,
    filter (datedAt k) (st_issues (loadData api ps st)) =
    filter (datedAt k) (flat_map (issuesDelivered api) ps)
    /\ filter (datedAt k) (st_prs (loadData api ps st)) =
       filter (datedAt k) (flat_map (prsDelivered api) ps).
Proof.
  intros Hd k. destruct (datedResponses_delivered api ps Hd) as [Hi Hp].
  rewrite loadData_issues, loadData_prs. split.
  - rewrite datedAt_timeKey
      by (intros r Hr; apply Hi; now apply (sort_In byRecency)).
    rewrite (datedAt_timeKey k _ Hi), sort_byRecency_dated by exact Hi.
    apply sort_stable. reflexivity.
  - rewrite datedAt_timeKey
      by (intros r Hr; apply Hp; now apply (sort_In byRecency)).
    rewrite (datedAt_timeKey k _ Hp), sort_byRecency_dated by exact Hp.
    apply sort_stable. reflexivity.
Qed.

Lemma unified_collections_keep_ties_in_fetch_order_witness :
  datedResponses Sample2.twoProjects Sample2.projects
  /\ filter (datedAt (Sample.now - 7200000))
       (st_prs (loadData Sample2.twoProjects Sample2.projects
                  Sample.emptyDash)) =
     [tagPR Sample.projectA (Sample.prAt (TsDate (Sample.now - 7200000)));
      tagPR Sample.projectB (Sample.prAt (TsDate (Sample.now - 7200000)))].
Proof.
  assert (Hd : datedResponses Sample2.twoProjects Sample2.projects).
  { split; intros p response r Hp Hg Hr;
      destruct Hp as [<-|[<-|[]]]; cbn in Hg; injection Hg as <-;
      cbn in Hr; intuition subst; discriminate. }
  split; [exact Hd|].
  rewrite (proj2 (unified_collections_keep_ties_in_fetch_order
                    Sample2.twoProjects Sample2.projects Sample.emptyDash Hd
                    (Sample.now - 7200000))).
  reflexivity.
Defined.

(** X5. A cycle replaces the whole state: its result does not depend on
    the state it starts from, running it again on its own result changes
    nothing, and with no selected project it yields the empty collections
    with the loading flag cleared, whatever the client would answer. *)
Theorem load_replaces_state api ps st st' :
  loadData api ps st = loadData api ps st'
  /\ loadData api ps (loadData api ps st) = loadData api ps st
  /\ loadData api [] st = mkDash [] [] false.
Proof.
  assert (H : forall s s', loadData api ps s = loadData api ps s').
  { intros s s'. unfold loadData. rewrite !loadDataBody_returns.
    destruct (List.length ps =? 0)%nat; reflexivity. }
  split; [apply H|]. split; [apply H | reflexivity].
Qed.

(** X6. When every request of a cycle fails, both unified collections are
    empty, the loading flag is cleared, metrics 1 to 5 are all 0, the feed is
    empty, and the chart has six points with no applications and no merged
    pull requests. *)
Theorem all_requests_failing_gives_empty_shapes api ps st tz now :
  (forall p, In p ps ->
             (exists err, getProjectIssues api (id p) = Thrown err)
             /\ (exists err, getProjectPRs api (id p) = Thrown err)) ->
  st_issues (loadData api ps st) = []
  /\ st_prs (loadData api ps st) = []
  /\ isLoading (loadData api ps st) = false
  /\ map value (stats now (st_issues (loadData api ps st))
                  (st_prs (loadData api ps st))) = [0; 0; 0; 0; 0]
  /\ activities now (st_issues (loadData api ps st))
       (st_prs (loadData api ps st)) = []
  /\ chartData tz now (st_issues (loadData api ps st))
       (st_prs (loadData api ps st)) =
     map (fun label => mkPoint label 0 0) months.
Proof.
  intros Hall.
  destruct (every_fetch_failing api ps st tz now Hall)
    as (Hi & Hp & Hl & Hs & Ha & _).
  cbv zeta in Hi, Hp. rewrite Hi, Hp.
  repeat split.
Qed.

Lemma all_requests_failing_gives_empty_shapes_witness :
  st_issues (loadData Sample.failingForA [Sample.projectA; Sample.projectA]
               Sample.emptyDash) = []
  /\ st_prs (loadData Sample.failingForA [Sample.projectA; Sample.projectA]
               Sample.emptyDash) = [].
Proof.
  assert (Hall : forall p, In p [Sample.projectA; Sample.projectA] ->
             (exists err,
                 getProjectIssues Sample.failingForA (id p) = Thrown err)
             /\ (exists err,
                    getProjectPRs Sample.failingForA (id p) = Thrown err)).
  { intros p [<-|[<-|[]]]; split; exists "network"; reflexivity. }
  destruct (all_requests_failing_gives_empty_shapes Sample.failingForA
              [Sample.projectA; Sample.projectA] Sample.emptyDash 0
              Sample.now Hall) as (Hi & Hp & _).
  split; [exact Hi | exact Hp].
Defined.

(* ================================================================== *)
(** ** Further properties: statistics and chart *)
(* ================================================================== *)

Lemma countIf_perm {A} (p : A -> bool) l l' :
  Permutation l l' -> countIf p l = countIf p l'.
Proof. induction 1; cbn [countIf]; lia. Qed.

Lemma commentsOver_perm (p : Issue -> bool) l l' :
  Permutation l l' -> commentsOver p l = commentsOver p l'.
Proof. induction 1; cbn [commentsOver]; lia. Qed.

(** X7. The statistics depend on which records the collections hold, not
    on their order: permuting the issues and the pull requests leaves all
    five metrics unchanged. *)
Theorem stats_ignore_order now issues issues' prs prs' :
  Permutation issues issues' -> Permutation prs prs' ->
  stats now issues prs = stats now issues' prs'.
Proof.
  intros Hi Hp. unfold stats.
  rewrite !filter_filter, !len_filter_countIf, !sumComments_filter.
  rewrite (countIf_perm _ _ _ Hi), (commentsOver_perm _ _ _ Hi).
  rewrite !(countIf_perm _ _ _ Hp). reflexivity.
Qed.

Lemma stats_ignore_order_witness :
  stats Sample.now
    [Sample.issueAt (TsDate Sample.now); Sample.undated] [] =
  stats Sample.now
    [Sample.undated; Sample.issueAt (TsDate Sample.now)] [].
Proof.
  apply stats_ignore_order; [apply perm_swap | apply perm_nil].
Defined.

(** X8. The chart depends on which records the collections hold, not on
    their order. *)
Theorem chart_ignores_order tz now issues issues' prs prs' :
  Permutation issues issues' -> Permutation prs prs' ->
  chartData tz now issues prs = chartData tz now issues' prs'.
Proof.
  intros Hi Hp. unfold chartData, mapIndexed, months. cbn [mapFrom].
  rewrite !filter_filter, !len_filter_countIf, !sumComments_filter.
  rewrite !(commentsOver_perm _ _ _ Hi), !(countIf_perm _ _ _ Hp).
  reflexivity.
Qed.

Lemma chart_ignores_order_witness :
  chartData 0 Sample.now [] [Sample.prAt (TsDate Sample.now); Sample2.undatedPR]
  = chartData 0 Sample.now []
      [Sample2.undatedPR; Sample.prAt (TsDate Sample.now)].
Proof.
  apply chart_ignores_order; [apply perm_nil | apply perm_swap].
Defined.

Lemma mergedIn_buckets tz now prs :
  countIf (fun pr => inMonth tz now 0 pr && merged pr) prs
  + (countIf (fun pr => inMonth tz now 1 pr && merged pr) prs
     + (countIf (fun pr => inMonth tz now 2 pr && merged pr) prs
        + (countIf (fun pr => inMonth tz now 3 pr && merged pr) prs
           + (countIf (fun pr => inMonth tz now 4 pr && merged pr) prs
              + countIf (fun pr => inMonth tz now 5 pr && merged pr) prs))))
  = countIf (fun pr => inSpan tz now pr && merged pr) prs.
Proof.
  induction prs as [|x l IH]; [reflexivity|].
  cbn [countIf]. rewrite <- IH. clear IH.
  repeat match goal with
         | |- context [countIf ?f l] => generalize (countIf f l); intro
         end.
  destruct (merged x).
  - rewrite !andb_true_r.
    pose proof (six_buckets_partition
                  (monthDate tz now 0) (monthDate tz now 1)
                  (monthDate tz now 2) (monthDate tz now 3)
                  (monthDate tz now 4) (monthDate tz now 5)
                  (monthDate tz now 6) (effectiveTime x) 1
                  (monthDate_step tz now 0) (monthDate_step tz now 1)
                  (monthDate_step tz now 2) (monthDate_step tz now 3)
                  (monthDate_step tz now 4) (monthDate_step tz now 5)) as Hx.
    cbv beta zeta in Hx. unfold inSpan, inMonth.
    rewrite (nextMonth_is_next_monthDate tz now 0),
      (nextMonth_is_next_monthDate tz now 1),
      (nextMonth_is_next_monthDate tz now 2),
      (nextMonth_is_next_monthDate tz now 3),
      (nextMonth_is_next_monthDate tz now 4),
      (nextMonth_is_next_monthDate tz now 5).
    cbn [Z.add Pos.add Pos.succ].
    lia.
  - rewrite !andb_false_r. lia.
Qed.

(** X9. The [merged] values of the six chart points add up to the number
    of merged pull requests whose effective timestamp lies between the start
    of the first bucket and the end of the last. *)
Theorem chart_merged_sum_to_span tz now issues prs :
  sumZ (map point_merged (chartData tz now issues prs)) =
  countIf (fun pr => inSpan tz now pr && merged pr) prs.
Proof.
  unfold chartData, mapIndexed, months.
  cbn [mapFrom map point_merged sumZ fold_right Z.add Pos.add Pos.succ].
  rewrite !filter_filter, !len_filter_countIf, Z.add_0_r.
  apply mergedIn_buckets.
Qed.

(** X10. Every bucket starts in the calendar month that lies [5 - index]
    months before the month of [now], counted around the year; the last
    bucket starts in the month of [now] itself. *)
Theorem buckets_are_calendar_months tz now index :
  Js.getMonth tz (monthDate tz now index) =
  (Js.getMonth tz now - (5 - index)) mod 12
  /\ Js.getMonth tz (monthDate tz now 5) = Js.getMonth tz now.
Proof.
  split.
  - unfold monthDate. apply getMonth_newDate.
  - unfold monthDate. rewrite getMonth_newDate.
    pose proof (monthFromDay_range ((now + tz) / Js.msPerDay)) as Hr.
    fold (Js.getMonth tz now) in Hr.
    replace (Js.getMonth tz now - (5 - 5)) with (Js.getMonth tz now) by lia.
    now apply Z.mod_small.
Qed.

(** X11. When the year of [now] is not one of 0..99, the last bucket is the
    calendar month that contains [now], so a record dated [now] is counted
    in the last chart point. *)
Theorem last_bucket_holds_now tz now :
  Js.getFullYear tz now < 0 \/ 99 < Js.getFullYear tz now ->
  monthDate tz now 5 <= now < nextMonth tz now 5
  /\ (forall (r : Issue),
         effectiveTime r = Some now ->
         inMonth tz now 5 r = true /\ inSpan tz now r = true).
Proof.
  intros Hy. pose proof (now_in_last_bucket tz now Hy) as [Hlo Hhi].
  split; [split; assumption|].
  intros r Hr. unfold inMonth, inSpan. rewrite Hr. cbn [Js.ge Js.lt].
  pose proof (monthDate_mono tz now 0 5 ltac:(lia)).
  split; apply andb_true_iff; split;
    (apply Z.leb_le || apply Z.ltb_lt); lia.
Qed.

Lemma last_bucket_holds_now_witness :
  99 < Js.getFullYear 0 Sample.now
  /\ monthDate 0 Sample.now 5 <= Sample.now < nextMonth 0 Sample.now 5.
Proof.
  assert (Hy : 99 < Js.getFullYear 0 Sample.now) by (vm_compute; reflexivity).
  split; [exact Hy|].
  exact (proj1 (last_bucket_holds_now 0 Sample.now (or_intror Hy))).
Defined.

(* ================================================================== *)
(** ** Further properties: relative-time labels *)
(* ================================================================== *)

(** Parsing a formatted timestamp gives [now] minus the bucket's offset. *)
Lemma parse_format now t :
  parseTimeAgo now (formatTimeAgo now (Some t)) =
  now - bucketOffset (bucketOf now t).
Proof.
  rewrite formatTimeAgo_bucket.
  apply parseTimeAgo_bucketLabel, bucketOf_counts.
Qed.

(** The buckets [bucketOf] can return, with the elapsed time they stand for. *)
Lemma bucketOf_cases now t :
  match bucketOf now t with
  | JustNow => now - t < 60000
  | Minutes n => n = (now - t) / 60000 /\ 1 <= n < 60
  | Hours n => n = (now - t) / 3600000 /\ 1 <= n < 24
  | Days n => n = (now - t) / 86400000 /\ 1 <= n < 30
  | Months n => n = (now - t) / 86400000 / 30 /\ 1 <= n
  end.
Proof.
  unfold bucketOf.
  destruct (Z.ltb_spec ((now - t) / 60000) 1); [div_exact|].
  destruct (Z.ltb_spec ((now - t) / 60000) 60); [lia|].
  destruct (Z.ltb_spec ((now - t) / 3600000) 24); [div_exact|].
  destruct (Z.ltb_spec ((now - t) / 86400000) 30); div_exact.
Qed.

Lemma bucketOffset_inj now t1 t2 :
  bucketOffset (bucketOf now t1) = bucketOffset (bucketOf now t2) ->
  bucketOf now t1 = bucketOf now t2.
Proof.
  pose proof (bucketOf_cases now t1) as H1.
  pose proof (bucketOf_cases now t2) as H2.
  destruct (bucketOf now t1) as [|a|a|a|a], (bucketOf now t2) as [|b|b|b|b];
    cbn [bucketOffset]; intros E; try reflexivity; try (exfalso; lia);
    f_equal; lia.
Qed.

(** X12. Two timestamps get the same relative-time label exactly when they
    fall in the same bucket (same unit, same count). *)
Theorem same_label_same_bucket now t1 t2 :
  formatTimeAgo now (Some t1) = formatTimeAgo now (Some t2) <->
  bucketOf now t1 = bucketOf now t2.
Proof.
  split.
  - intros E. apply bucketOffset_inj.
    pose proof (parse_format now t1) as P1.
    pose proof (parse_format now t2) as P2.
    rewrite E in P1. lia.
  - intros E. now rewrite !formatTimeAgo_bucket, E.
Qed.

(** X13. A timestamp is labelled "just now" exactly when less than a minute
    has elapsed since it; in particular every timestamp in the future is. *)
Theorem just_now_under_a_minute now t :
  formatTimeAgo now (Some t) = "just now" <-> now - t < 60000.
Proof.
  pose proof (bucketOf_cases now t) as Hc.
  pose proof (parse_format now t) as P.
  split.
  - intros E. rewrite E in P.
    assert (P0 : parseTimeAgo now "just now" = now)
      by (unfold parseTimeAgo; eval_includes; reflexivity).
    rewrite P0 in P.
    destruct (bucketOf now t); cbn [bucketOffset] in P; lia.
  - intros Hlt. rewrite formatTimeAgo_bucket. unfold bucketOf.
    destruct (Z.ltb_spec ((now - t) / 60000) 1); [reflexivity | div_exact].
Qed.

Lemma bucketOffset_antitone now t1 t2 :
  t1 <= t2 ->
  bucketOffset (bucketOf now t2) <= bucketOffset (bucketOf now t1).
Proof.
  intros Hle.
  pose proof (bucketOf_cases now t1) as H1.
  pose proof (bucketOf_cases now t2) as H2.
  destruct (bucketOf now t1) as [|a|a|a|a], (bucketOf now t2) as [|b|b|b|b];
    cbn [bucketOffset]; div_exact.
Qed.

(** X14. Formatting and parsing back never reverses the order of two
    timestamps, and never yields an instant after [now]; so ranking the feed
    by the parsed labels never puts an older record before a newer one
    unless their labels parse alike. *)
Theorem parsed_label_keeps_order now t1 t2 :
  t1 <= t2 ->
  parseTimeAgo now (formatTimeAgo now (Some t1))
  <= parseTimeAgo now (formatTimeAgo now (Some t2))
  /\ parseTimeAgo now (formatTimeAgo now (Some t2)) <= now.
Proof.
  intros Hle. rewrite !parse_format.
  pose proof (bucketOffset_antitone now t1 t2 Hle).
  pose proof (bucketOf_cases now t2) as H2.
  split; [lia|].
  destruct (bucketOf now t2); cbn [bucketOffset]; lia.
Qed.

Lemma parsed_label_keeps_order_witness :
  Sample.now - 5400000 <= Sample.now - 60000
  /\ parseTimeAgo Sample.now
       (formatTimeAgo Sample.now (Some (Sample.now - 5400000)))
     <= parseTimeAgo Sample.now
          (formatTimeAgo Sample.now (Some (Sample.now - 60000))).
Proof.
  assert (Hle : Sample.now - 5400000 <= Sample.now - 60000)
    by (vm_compute; discriminate).
  split; [exact Hle|].
  exact (proj1 (parsed_label_keeps_order Sample.now (Sample.now - 5400000)
                  (Sample.now - 60000) Hle)).
Defined.

(* ================================================================== *)
(** ** Further properties: the effects *)
(* ================================================================== *)

Lemma run_snoc events e : run (events ++ [e]) = step (run events) e.
Proof. unfold run. now rewrite fold_left_app. Qed.

Lemma rendered_snoc events e :
  rendered (events ++ [e]) =
  rendered events ++ match e with Render props => [props] | _ => [] end.
Proof.
  induction events as [|x l IH]; cbn [app rendered].
  - destruct e; reflexivity.
  - destruct x; cbn [app]; now rewrite IH.
Qed.

Lemma lastRendered_snoc events e :
  lastRendered (events ++ [e]) =
  match e with Render props => Some props | _ => lastRendered events end.
Proof.
  unfold lastRendered. rewrite rendered_snoc.
  destruct e; rewrite ?app_nil_r; try reflexivity.
  rewrite map_app. cbn [map]. apply last_last.
Qed.

Lemma sameCallback_eq a b : sameCallback a b = true <-> a = b.
Proof.
  destruct a as [x|], b as [y|]; cbn [sameCallback]; split; intros E;
    try discriminate; try reflexivity.
  - apply Nat.eqb_eq in E. now subst.
  - injection E as ->. apply Nat.eqb_refl.
Qed.

Lemma clear_single id d sel h :
  intervals h = [mkInterval id d sel] -> intervals (clearInterval id h) = [].
Proof.
  intros E. unfold clearInterval. cbn [intervals]. rewrite E.
  cbn [filter handle]. now rewrite Nat.eqb_refl.
Qed.

(** The state of the intervals after any history. *)
Lemma effects_invariant events :
  match component (run events) with
  | None => intervals (host (run events)) = []
  | Some m =>
      exists q,
        lastRendered events = Some q
        /\ loadDeps m = ref (props_selectedProjects q)
        /\ refreshDeps m = (props_onRefresh q, ref (props_selectedProjects q))
        /\ match cleanup m with
           | Some id =>
               props_onRefresh q <> None
               /\ exists p,
                   In p (rendered events)
                   /\ ref (props_selectedProjects p)
                      = ref (props_selectedProjects q)
                   /\ intervals (host (run events)) =
                      [mkInterval id 30000 (elems (props_selectedProjects p))]
           | None =>
               props_onRefresh q = None /\ intervals (host (run events)) = []
           end
  end.
Proof.
  induction events as [|e events IH] using rev_ind; [reflexivity|].
  rewrite run_snoc, lastRendered_snoc, rendered_snoc.
  set (w := run events) in *.
  destruct e as [props| |id]; cbn [step].
  - (* render *)
    assert (Hmount : forall h, intervals h = [] ->
              let hc := refreshEffect props (loadEffect props h) in
              match snd hc with
              | Some id =>
                  props_onRefresh props <> None
                  /\ intervals (fst hc) =
                     [mkInterval id 30000
                        (elems (props_selectedProjects props))]
              | None => props_onRefresh props = None
                        /\ intervals (fst hc) = []
              end).
    { intros h Hh. unfold refreshEffect, loadEffect, callLoadData, setInterval.
      destruct (props_onRefresh props) as [cb|];
        cbn [fst snd intervals nextHandle].
      - rewrite Hh. split; [discriminate | reflexivity].
      - split; [reflexivity | exact Hh]. }
    unfold render. destruct (component w) as [m|] eqn:Em.
    + destruct IH as (q & Hq & Hld & Hrd & Hc).
      rewrite Hrd. cbn [fst snd].
      destruct (sameCallback (props_onRefresh q) (props_onRefresh props)
                && (ref (props_selectedProjects q)
                    =? ref (props_selectedProjects props))%nat) eqn:Esame;
        cbn [negb].
      * apply andb_true_iff in Esame. destruct Esame as [Ecb Eref].
        apply sameCallback_eq in Ecb. apply Nat.eqb_eq in Eref.
        cbn [component]. exists props. repeat split.
        destruct (cleanup m) as [id|].
        -- destruct Hc as (Hne & p & Hp & Hpr & Hiv). split; [congruence|].
           exists p. split; [apply in_or_app; now left|].
           split; [congruence|].
           destruct (negb _); cbn [host]; exact Hiv.
        -- destruct Hc as (Hn & Hiv). split; [congruence|].
           destruct (negb _); cbn [host]; exact Hiv.
      * assert (Hclr : intervals (runCleanup (cleanup m) (host w)) = []).
        { destruct (cleanup m) as [id|]; cbn [runCleanup].
          - destruct Hc as (_ & p & _ & _ & Hiv). eapply clear_single; eauto.
          - apply Hc. }
        set (h0 := runCleanup (cleanup m) (host w)) in *.
        assert (Hh1 : intervals
                        (if negb (loadDeps m
                                  =? ref (props_selectedProjects props))%nat
                         then loadEffect props h0 else h0) = [])
          by (destruct (negb _); exact Hclr).
        set (h1 := if negb _ then _ else _) in *.
        destruct (refreshEffect props h1) as [h2 c] eqn:Er. cbn [component host].
        exists props. repeat split.
        unfold refreshEffect, setInterval in Er.
        destruct (props_onRefresh props) as [cb|]; injection Er as <- <-.
        -- split; [discriminate|]. exists props.
           split; [apply in_or_app; right; now left|]. split; [reflexivity|].
           cbn [intervals]. now rewrite Hh1.
        -- split; [reflexivity | exact Hh1].
    + specialize (Hmount (host w) IH). cbv zeta in Hmount.
      destruct (refreshEffect props (loadEffect props (host w))) as [h2 c].
      cbn [fst snd component host] in *. exists props. repeat split.
      destruct c as [id|].
      * destruct Hmount as [Hne Hiv]. split; [exact Hne|]. exists props.
        split; [apply in_or_app; right; now left|].
        split; [reflexivity | exact Hiv].
      * exact Hmount.
  - (* unmount *)
    unfold unmount. destruct (component w) as [m|] eqn:Em; cbn [component host].
    + destruct IH as (q & _ & _ & _ & Hc).
      destruct (cleanup m) as [id|]; cbn [runCleanup].
      * destruct Hc as (_ & p & _ & _ & Hiv). eapply clear_single; eauto.
      * apply Hc.
    + rewrite Em. exact IH.
  - (* tick *)
    rewrite app_nil_r.
    assert (Ht : component (tick id w) = component w
                 /\ intervals (host (tick id w)) = intervals (host w)).
    { unfold tick. destruct (find _ _); split; reflexivity. }
    destruct Ht as [-> ->]. exact IH.
Qed.

Lemma lastRendered_In events q :
  lastRendered events = Some q -> In q (rendered events).
Proof.
  unfold lastRendered.
  induction (rendered events) as [|p l IH] using rev_ind; [discriminate|].
  rewrite map_app. cbn [map]. rewrite last_last. intros [= ->].
  apply in_or_app. right. now left.
Qed.

Lemma unmount_component w : component (unmount w) = None.
Proof.
  unfold unmount. destruct (component w) eqn:E; [reflexivity | exact E].
Qed.

(** X19. After any history of renders, unmounts and timer ticks, at most
    one interval runs and its delay is 30000 ms; an interval runs exactly
    when the component is mounted and its last render was given an
    [onRefresh] callback; and unmounting leaves no interval behind. *)
Theorem refresh_timer_discipline events :
  (intervals (host (run events)) = []
   \/ exists id sel, intervals (host (run events)) = [mkInterval id 30000 sel])
  /\ (intervals (host (run events)) <> [] <->
      component (run events) <> None
      /\ exists q, lastRendered events = Some q /\ props_onRefresh q <> None)
  /\ intervals (host (run (events ++ [Unmount]))) = [].
Proof.
  pose proof (effects_invariant events) as Hinv.
  pose proof (effects_invariant (events ++ [Unmount])) as Hun.
  rewrite run_snoc in Hun. cbn [step] in Hun.
  rewrite unmount_component in Hun. rewrite run_snoc. cbn [step].
  split; [|split; [|exact Hun]].
  - destruct (component (run events)) as [m|]; [|now left].
    destruct Hinv as (q & _ & _ & _ & Hc). destruct (cleanup m) as [id|].
    + destruct Hc as (_ & p & _ & _ & Hiv). right. eauto.
    + left. apply Hc.
  - destruct (component (run events)) as [m|].
    + destruct Hinv as (q & Hq & _ & _ & Hc). destruct (cleanup m) as [id|].
      * destruct Hc as (Hne & p & _ & _ & Hiv). rewrite Hiv. split.
        -- intros _. split; [discriminate|]. now exists q.
        -- intros _. discriminate.
      * destruct Hc as (Hn & Hiv). rewrite Hiv. split; [congruence|].
        intros (_ & q' & Hq' & Hne). congruence.
    + rewrite Hinv. split; [congruence | intros [H _]; congruence].
Qed.

(** X20. When an array identity always stands for the same array, the
    running interval fires every 30000 ms and its callback calls [loadData]
    for the selection of the last render, never for an earlier one. *)
Theorem refresh_loads_current_selection events :
  stableRefs events ->
  forall iv, In iv (intervals (host (run events))) ->
    exists q,
      lastRendered events = Some q
      /\ captured iv = elems (props_selectedProjects q)
      /\ delay iv = 30000
      /\ loadCalls (host (run (events ++ [Tick (handle iv)]))) =
         loadCalls (host (run events)) ++ [elems (props_selectedProjects q)].
Proof.
  intros Hstable iv Hiv.
  pose proof (effects_invariant events) as Hinv.
  destruct (component (run events)) as [m|];
    [|rewrite Hinv in Hiv; destruct Hiv].
  destruct Hinv as (q & Hq & _ & _ & Hc). destruct (cleanup m) as [id|].
  - destruct Hc as (_ & p & Hp & Href & Hivs). rewrite Hivs in Hiv.
    destruct Hiv as [<-|[]]. exists q. cbn [captured delay handle].
    assert (He : elems (props_selectedProjects p)
                 = elems (props_selectedProjects q))
      by (apply Hstable; auto using lastRendered_In).
    repeat split; try assumption.
    rewrite run_snoc. cbn [step]. unfold tick. rewrite Hivs.
    cbn [find handle]. rewrite Nat.eqb_refl.
    cbn [host loadCalls callLoadData captured].
    now rewrite He.
  - destruct Hc as (_ & Hivs). rewrite Hivs in Hiv. destruct Hiv.
Qed.

Lemma refreshEffect_loadCalls props h :
  loadCalls (fst (refreshEffect props h)) = loadCalls h.
Proof. unfold refreshEffect. now destruct (props_onRefresh props). Qed.

Lemma runCleanup_loadCalls c h : loadCalls (runCleanup c h) = loadCalls h.
Proof. now destruct c. Qed.

(** A render calls [loadData] when it mounts the component or brings a
    selection of a new identity, and not otherwise. *)
Lemma render_loadCalls events props :
  loadCalls (host (run (events ++ [Render props]))) =
  loadCalls (host (run events))
  ++ match component (run events), lastRendered events with
     | Some _, Some q =>
         if (ref (props_selectedProjects q)
             =? ref (props_selectedProjects props))%nat
         then []
         else [elems (props_selectedProjects props)]
     | _, _ => [elems (props_selectedProjects props)]
     end.
Proof.
  pose proof (effects_invariant events) as Hinv.
  rewrite run_snoc. cbn [step]. unfold render.
  destruct (component (run events)) as [m|].
  - destruct Hinv as (q & -> & Hld & _ & _). rewrite Hld.
    set (changed := negb (sameCallback _ _ && _)).
    set (h0 := if changed then _ else host (run events)).
    assert (H0 : loadCalls h0 = loadCalls (host (run events)))
      by (unfold h0; destruct changed;
          [apply runCleanup_loadCalls | reflexivity]).
    set (h1 := if negb _ then loadEffect props h0 else h0).
    assert (H2 : loadCalls (host
               (let (h2, c) := if changed then refreshEffect props h1
                               else (h1, cleanup m) in
                mkWorld h2
                  (Some (mkMounted (ref (props_selectedProjects props))
                           (props_onRefresh props,
                            ref (props_selectedProjects props)) c))))
             = loadCalls h1).
    { destruct changed.
      - pose proof (refreshEffect_loadCalls props h1) as Hr.
        destruct (refreshEffect props h1); exact Hr.
      - reflexivity. }
    rewrite H2. unfold h1.
    destruct (ref (props_selectedProjects q)
              =? ref (props_selectedProjects props))%nat; cbn [negb].
    + now rewrite H0, app_nil_r.
    + unfold loadEffect, callLoadData. cbn [loadCalls]. now rewrite H0.
  - pose proof (refreshEffect_loadCalls props
                  (loadEffect props (host (run events)))) as Hr.
    destruct (refreshEffect props (loadEffect props (host (run events)))).
    cbn [host fst] in *. rewrite Hr. reflexivity.
Qed.

(** Every call of [loadData] is for a selection some render passed. *)
Lemma loadCalls_rendered events :
  forall sel, In sel (loadCalls (host (run events))) ->
              exists p, In p (rendered events)
                        /\ sel = elems (props_selectedProjects p).
Proof.
  induction events as [|e events IH] using rev_ind; intros sel Hsel;
    [destruct Hsel|].
  rewrite rendered_snoc.
  assert (Hold : forall s, In s (loadCalls (host (run events))) ->
            exists p, In p (rendered events
                             ++ match e with Render pr => [pr] | _ => [] end)
                      /\ s = elems (props_selectedProjects p)).
  { intros s Hs. destruct (IH s Hs) as (p & Hp & ->). exists p.
    split; [apply in_or_app; now left | reflexivity]. }
  destruct e as [props| |id].
  - rewrite render_loadCalls in Hsel.
    apply in_app_or in Hsel. destruct Hsel as [Hs|Hs]; [now apply Hold|].
    assert (Hin : sel = elems (props_selectedProjects props)).
    { destruct (component (run events)), (lastRendered events);
        try (destruct (_ =? _)%nat); cbn in Hs; intuition. }
    exists props. split; [apply in_or_app; right; now left | exact Hin].
  - rewrite run_snoc in Hsel. cbn [step] in Hsel. unfold unmount in Hsel.
    destruct (component (run events)); cbn [host] in Hsel;
      rewrite ?runCleanup_loadCalls in Hsel; now apply Hold.
  - rewrite run_snoc in Hsel. cbn [step] in Hsel. unfold tick in Hsel.
    destruct (find _ _) as [iv|] eqn:Ef; [|now apply Hold].
    cbn [host callLoadData loadCalls] in Hsel.
    apply in_app_or in Hsel. destruct Hsel as [Hs|[<-|[]]]; [now apply Hold|].
    apply find_some in Ef. destruct Ef as [Hiv _].
    pose proof (effects_invariant events) as Hinv.
    destruct (component (run events)) as [m|];
      [|rewrite Hinv in Hiv; destruct Hiv].
    destruct Hinv as (q & _ & _ & _ & Hc). destruct (cleanup m).
    + destruct Hc as (_ & p & Hp & _ & Hivs). rewrite Hivs in Hiv.
      destruct Hiv as [<-|[]]. exists p. rewrite app_nil_r. now split.
    + destruct Hc as (_ & Hivs). rewrite Hivs in Hiv. destruct Hiv.
Qed.

Lemma refresh_loads_current_selection_witness :
  let props := mkProps (mkProjects 1 [Sample.projectA]) (Some 7%nat) in
  stableRefs [Render props]
  /\ loadCalls (host (run ([Render props] ++ [Tick 0]))) =
     loadCalls (host (run [Render props])) ++ [[Sample.projectA]].
Proof.
  intros props.
  assert (Hs : stableRefs [Render props]).
  { intros p q [<-|[]] [<-|[]] _. reflexivity. }
  split; [exact Hs|].
  destruct (refresh_loads_current_selection [Render props] Hs
              (mkInterval 0 30000 [Sample.projectA]) (or_introl eq_refl))
    as (q & Hq & _ & _ & Hcalls).
  injection Hq as <-. exact Hcalls.
Defined.

(** X21. A render calls [loadData] exactly when it mounts the component or
    passes a selection whose identity differs from that of the previous
    render, and then once, for the selection it passes; and every call of
    [loadData], by an effect or by the timer, is for a selection that some
    render passed. *)
Theorem loads_follow_the_selection events :
  (forall props,
      loadCalls (host (run (events ++ [Render props]))) =
      loadCalls (host (run events))
      ++ match component (run events), lastRendered events with
         | Some _, Some q =>
             if (ref (props_selectedProjects q)
                 =? ref (props_selectedProjects props))%nat
             then []
             else [elems (props_selectedProjects props)]
         | _, _ => [elems (props_selectedProjects props)]
         end)
  /\ (forall sel, In sel (loadCalls (host (run events))) ->
                  exists p, In p (rendered events)
                            /\ sel = elems (props_selectedProjects p)).
Proof.
  split; [intros props; apply render_loadCalls | apply loadCalls_rendered].
Qed.
